(** * netconf: the operation library of [ops.go], embedded and verified

    The Go package [netconf] builds typed RFC6241 requests, applies the
    caller's functional options, validates them and hands the request to
    [Session.Call].  This file embeds [ops.go] function by function:

    - Go strings are byte sequences: they are modelled by [string]
      (a list of 8-bit [ascii]);
    - a Go result pair [(string, error)] is a Rocq pair whose second
      component is an [option error] ([None] is Go's [nil]);
    - the parts of Go's standard library that [ops.go] calls
      ([unicode/utf8], [encoding/xml], [html], [regexp], [strings], [time])
      are modelled in the modules [utf8], [xml], [html], [regexp] and [time]
      below;
    - [Session.Call] lives in another file of the package; operations
      are programs over one primitive [Call], interpreted by an arbitrary
      handler. *)

From Stdlib Require Import String Ascii List ZArith Bool Arith Lia Permutation.
From Stdlib Require Import DecimalString.
From Stdlib Require Import PrimFloat FloatOps SpecFloat Uint63.
Import ListNotations.

Local Open Scope list_scope.
Local Open Scope string_scope.

Set Implicit Arguments.

(** ** Go values *)

(** Go's [error] interface: only the message is observable here. *)
Inductive error : Type :=
| errorString (msg : string).

(** The byte [0x22] (double quote) and strings containing it. *)
Definition dquote : ascii := ascii_of_nat 34.
Definition squote : ascii := ascii_of_nat 39.
Definition dq : string := String dquote EmptyString.

Definition byteZ (c : ascii) : Z := Z.of_nat (nat_of_ascii c).

(** [s[n:]] for [n <= len(s)]. *)
Fixpoint drop (n : nat) (s : string) : string :=
  match n, s with
  | O, _ => s
  | S _, EmptyString => EmptyString
  | S n', String _ s' => drop n' s'
  end.

(** [s[:n]] for [n <= len(s)]. *)
Fixpoint take (n : nat) (s : string) : string :=
  match n, s with
  | O, _ => EmptyString
  | S _, EmptyString => EmptyString
  | S n', String c s' => String c (take n' s')
  end.

(** [strings.HasPrefix]. *)
Definition HasPrefix (s p : string) : bool := String.prefix p s.

(** ** [unicode/utf8] *)
Module utf8.

Local Open Scope Z_scope.

Definition RuneError : Z := 0xFFFD.

Definition locb : Z := 0x80.
Definition hicb : Z := 0xBF.
Definition xx : Z := 0xF1.
Definition as_ : Z := 0xF0.
Definition s1 : Z := 0x02.
Definition s2 : Z := 0x13.
Definition s3 : Z := 0x03.
Definition s4 : Z := 0x23.
Definition s5 : Z := 0x34.
Definition s6 : Z := 0x04.
Definition s7 : Z := 0x44.

(** The table [first]: information about the first byte of an encoding. *)
Definition first (p0 : Z) : Z :=
  if p0 <? 0x80 then as_
  else if p0 <? 0xC2 then xx
  else if p0 <? 0xE0 then s1
  else if p0 =? 0xE0 then s2
  else if p0 <? 0xED then s3
  else if p0 =? 0xED then s4
  else if p0 <? 0xF0 then s3
  else if p0 =? 0xF0 then s5
  else if p0 <? 0xF4 then s6
  else if p0 =? 0xF4 then s7
  else xx.

(** The table [acceptRanges], as (lo, hi) of the second byte. *)
Definition acceptRanges (i : Z) : Z * Z :=
  if i =? 0 then (locb, hicb)
  else if i =? 1 then (0xA0, hicb)
  else if i =? 2 then (locb, 0x9F)
  else if i =? 3 then (0x90, hicb)
  else if i =? 4 then (locb, 0x8F)
  else (0, 0).

Definition maskx : Z := 0x3F.
Definition mask2 : Z := 0x1F.
Definition mask3 : Z := 0x0F.
Definition mask4 : Z := 0x07.

(** [utf8.DecodeRune]: the first rune of [p] and its width in bytes. *)
Definition DecodeRune (p : string) : Z * nat :=
  match p with
  | EmptyString => (RuneError, 0%nat)
  | String c0 p1 =>
    let p0 := byteZ c0 in
    let x := first p0 in
    if as_ <=? x then
      ((if Z.testbit x 0 then RuneError else p0), 1%nat)
    else
      let sz := Z.to_nat (Z.land x 7) in
      let accept := acceptRanges (Z.shiftr x 4) in
      if (String.length p <? sz)%nat then (RuneError, 1%nat)
      else
        match p1 with
        | EmptyString => (RuneError, 1%nat)
        | String c1 p2 =>
          let b1 := byteZ c1 in
          if (b1 <? fst accept) || (snd accept <? b1) then (RuneError, 1%nat)
          else if (sz <=? 2)%nat then
            (Z.lor (Z.shiftl (Z.land p0 mask2) 6) (Z.land b1 maskx), 2%nat)
          else
            match p2 with
            | EmptyString => (RuneError, 1%nat)
            | String c2 p3 =>
              let b2 := byteZ c2 in
              if (b2 <? locb) || (hicb <? b2) then (RuneError, 1%nat)
              else if (sz <=? 3)%nat then
                (Z.lor (Z.lor (Z.shiftl (Z.land p0 mask3) 12)
                              (Z.shiftl (Z.land b1 maskx) 6))
                       (Z.land b2 maskx), 3%nat)
              else
                match p3 with
                | EmptyString => (RuneError, 1%nat)
                | String c3 _ =>
                  let b3 := byteZ c3 in
                  if (b3 <? locb) || (hicb <? b3) then (RuneError, 1%nat)
                  else
                    (Z.lor (Z.lor (Z.lor (Z.shiftl (Z.land p0 mask4) 18)
                                         (Z.shiftl (Z.land b1 maskx) 12))
                                  (Z.shiftl (Z.land b2 maskx) 6))
                           (Z.land b3 maskx), 4%nat)
                end
            end
        end
  end.

End utf8.

(** ** [html] *)
Module html.

(** One step of [htmlEscaper], a byte-for-string [strings.Replacer]. *)
Definition escapeByte (c : ascii) : string :=
  if Ascii.eqb c "&" then "&amp;"
  else if Ascii.eqb c squote then "&#39;"
  else if Ascii.eqb c "<" then "&lt;"
  else if Ascii.eqb c ">" then "&gt;"
  else if Ascii.eqb c dquote then "&#34;"
  else String c EmptyString.

(** [html.EscapeString]. *)
Fixpoint EscapeString (s : string) : string :=
  match s with
  | EmptyString => EmptyString
  | String c s' => escapeByte c ++ EscapeString s'
  end.

End html.

(** ** [encoding/xml] *)
Module xml.

(** *** Escaping *)

Definition escQuot : string := "&#34;".
Definition escApos : string := "&#39;".
Definition escAmp : string := "&amp;".
Definition escLT : string := "&lt;".
Definition escGT : string := "&gt;".
Definition escTab : string := "&#x9;".
Definition escNL : string := "&#xA;".
Definition escCR : string := "&#xD;".
(** The UTF-8 encoding of U+FFFD. *)
Definition escFFFD : string :=
  String (ascii_of_nat 239) (String (ascii_of_nat 191)
    (String (ascii_of_nat 189) EmptyString)).

Definition isInCharacterRange (r : Z) : bool :=
  ((r =? 0x09) || (r =? 0x0A) || (r =? 0x0D)
   || ((0x20 <=? r) && (r <=? 0xD7FF))
   || ((0xE000 <=? r) && (r <=? 0xFFFD))
   || ((0x10000 <=? r) && (r <=? 0x10FFFF)))%Z.

(** The [switch r] of [escapeText] (called with [escapeNewline] set):
    the replacement of rune [r] of the given width, [None] when the
    rune is copied as it is. *)
Definition escapeRune (r : Z) (width : nat) : option string :=
  if (r =? 34)%Z then Some escQuot
  else if (r =? 39)%Z then Some escApos
  else if (r =? 38)%Z then Some escAmp
  else if (r =? 60)%Z then Some escLT
  else if (r =? 62)%Z then Some escGT
  else if (r =? 9)%Z then Some escTab
  else if (r =? 10)%Z then Some escNL
  else if (r =? 13)%Z then Some escCR
  else if negb (isInCharacterRange r)
          || ((r =? 0xFFFD)%Z && (width =? 1)%nat)
       then Some escFFFD
       else None.

(** The loop of [escapeText]: runes are decoded one after another; an
    escaped rune is replaced, the others are copied.  [skip] counts the
    bytes of the current rune that are still to be passed over. *)
Fixpoint escapeText (skip : nat) (s : string) : string :=
  match s with
  | EmptyString => EmptyString
  | String _ s' =>
    match skip with
    | S k => escapeText k s'
    | O =>
      let (r, width) := utf8.DecodeRune s in
      match escapeRune r width with
      | Some esc => esc ++ escapeText (width - 1) s'
      | None => take width s ++ escapeText (width - 1) s'
      end
    end
  end.

(** [xml.EscapeText] into a [strings.Builder], whose writes never fail:
    the bytes written and the (nil) error. *)
Definition EscapeText (s : string) : string * option error :=
  (escapeText 0 s, None).

(** *** Encoder *)

(** [xml.StartElement].  The start elements that the encoder hands to the
    field marshalers of this package carry a local name only. *)
Record StartElement : Type := mkStart { Local : string }.

(** [*xml.Encoder]: the bytes written so far, to a writer that accepts
    every write. *)
Definition Encoder : Type := string.

Definition writeStart (start : StartElement) (e : Encoder) : Encoder :=
  e ++ "<" ++ Local start ++ ">".

Definition writeEnd (start : StartElement) (e : Encoder) : Encoder :=
  e ++ "</" ++ Local start ++ ">".

(** The value of an anonymous struct type given to [EncodeElement]:
    [struct{}{}] or a struct with one [,innerxml] string field. *)
Inductive anonStruct : Type :=
| emptyStruct
| innerXML (Elem : string).

(** [e.EncodeElement(v, start)] for such a value.  The element name is
    that of [start]; a start element without a name is refused before
    anything is written. *)
Definition EncodeElement (v : anonStruct) (start : StartElement)
           (e : Encoder) : Encoder * option error :=
  if String.eqb (Local start) "" then
    (e, Some (errorString
                "xml: EncodeElement of StartElement with missing name"))
  else
    let e1 := writeStart start e in
    let e2 := match v with
              | emptyStruct => e1
              | innerXML raw => e1 ++ raw
              end in
    (writeEnd start e2, None).

(** *** Decoder *)

Inductive Token : Type :=
| TStartElement (name : string)
| TEndElement (name : string)
| TCharData (data : string).

(** [strconv.Itoa] of a line number. *)
Definition itoa (n : nat) : string := NilEmpty.string_of_uint (Nat.to_uint n).

(** The line feeds of a string. *)
Fixpoint countLF (s : string) : nat :=
  match s with
  | EmptyString => 0
  | String c s' =>
    (if Ascii.eqb c (ascii_of_nat 10) then 1 else 0) + countLF s'
  end.

(** The line feeds in the character data of a sequence of tokens. *)
Fixpoint lineFeeds (ts : list Token) : nat :=
  match ts with
  | [] => 0
  | TCharData c :: ts' => countLF c + lineFeeds ts'
  | _ :: ts' => lineFeeds ts'
  end.

(** [*xml.Decoder]: the tokens not yet read, the names of the open
    elements, innermost first, and the line of the input that the decoder
    has reached; a new decoder is on line 1.  The line feeds of the input
    are those of its character data: a token of character data takes the
    decoder down by the line feeds it holds, a tag leaves it on its
    line. *)
Record Decoder : Type :=
  mkDecoder { toks : list Token; stk : list string; line : nat }.

(** [d.syntaxError(msg)], a [*SyntaxError] with the line of the decoder:
    its text. *)
Definition syntaxError (d : Decoder) (msg : string) : error :=
  errorString ("XML syntax error on line " ++ itoa (line d) ++ ": " ++ msg).

(** The error of a read at the end of the input: [io.EOF], and a syntax
    error when an element is still open. *)
Definition eofError (d : Decoder) : error :=
  match stk d with
  | [] => errorString "EOF"
  | _ => syntaxError d "unexpected EOF"
  end.

(** [d.Token()]: the next token, checked against the open elements.  The
    decoder keeps an error it has met: it is returned as it was, and every
    later read fails in the same way. *)
Definition NextToken (d : Decoder) : (Token + error) * Decoder :=
  match toks d with
  | [] => (inr (eofError d), d)
  | TStartElement n :: ts =>
    (inl (TStartElement n), mkDecoder ts (n :: stk d) (line d))
  | TEndElement n :: ts =>
    match stk d with
    | [] =>
      (inr (syntaxError d ("unexpected end element </" ++ n ++ ">")), d)
    | m :: st =>
      if String.eqb m n then (inl (TEndElement n), mkDecoder ts st (line d))
      else (inr (syntaxError
                   d ("element <" ++ m ++ "> closed by </" ++ n ++ ">")), d)
    end
  | TCharData c :: ts =>
    (inl (TCharData c), mkDecoder ts (stk d) (line d + countLF c))
  end.

(** The loop of [d.Skip()]: tokens are read up to the end of the element
    whose start was consumed last. *)
Fixpoint skipLoop (depth : nat) (ts : list Token) (st : list string)
         (ln : nat) : option error * Decoder :=
  match ts with
  | [] => (Some (eofError (mkDecoder [] st ln)), mkDecoder [] st ln)
  | _ :: ts' =>
    match NextToken (mkDecoder ts st ln) with
    | (inr err, d') => (Some err, d')
    | (inl (TStartElement _), d') => skipLoop (S depth) ts' (stk d') (line d')
    | (inl (TEndElement _), d') =>
      match depth with
      | O => (None, d')
      | S depth' => skipLoop depth' ts' (stk d') (line d')
      end
    | (inl (TCharData _), d') => skipLoop depth ts' (stk d') (line d')
    end
  end.

(** [d.Skip()]. *)
Definition Skip (d : Decoder) : option error * Decoder :=
  skipLoop 0 (toks d) (stk d) (line d).

(** [d.DecodeElement(&struct{}{}, &start)], called after [start] has been
    read: the struct has no field, so every child of the element is
    skipped and the element is consumed up to its end tag. *)
Definition DecodeElement (d : Decoder) (start : StartElement)
  : option error * Decoder :=
  Skip d.

(** Decoding into a struct with a single field, of a type [T] that
    implements [xml.Unmarshaler], tagged with the element name [name]
    (as [OKResp] with its field [OK]): the loop of [d.unmarshal] over the
    children of the element whose start was read last.  A child named
    [name] goes to the field's [UnmarshalXML], any other child is
    skipped. *)
Section UnmarshalStruct.

Variable T : Type.
Variable UnmarshalXML : T -> Decoder -> StartElement -> T * option error * Decoder.
Variable name : string.

Fixpoint unmarshalLoop (fuel : nat) (v : T) (d : Decoder)
  : T * option error * Decoder :=
  match fuel with
  | O => (v, Some (eofError d), d)
  | S fuel' =>
    match NextToken d with
    | (inr err, d') => (v, Some err, d')
    | (inl (TStartElement n), d') =>
      if String.eqb n name then
        match UnmarshalXML v d' (mkStart n) with
        | (v', Some err, d'') => (v', Some err, d'')
        | (v', None, d'') => unmarshalLoop fuel' v' d''
        end
      else
        match Skip d' with
        | (Some err, d'') => (v, Some err, d'')
        | (None, d'') => unmarshalLoop fuel' v d''
        end
    | (inl (TEndElement _), d') => (v, None, d')
    | (inl (TCharData _), d') => unmarshalLoop fuel' v d'
    end
  end.

(** Every turn of the loop reads a token. *)
Definition unmarshalStruct (v : T) (d : Decoder) : T * option error * Decoder :=
  unmarshalLoop (S (List.length (toks d))) v d.

End UnmarshalStruct.

(** *** From bytes to tokens *)

(** The tokens of a document made of tags without attributes, written
    [<n>], [</n>] or [<n/>] with [n] a name of ASCII letters, digits,
    [_], [-] and [.], and of text of ASCII characters that the decoder
    returns as they are written: tabs, line feeds and the characters from
    the space on, without [&], [<] and []]; [None] for anything else. *)

Definition isLetter (c : ascii) : bool :=
  let n := nat_of_ascii c in
  (((65 <=? n) && (n <=? 90)) || ((97 <=? n) && (n <=? 122)) || (n =? 95))%nat.

Definition isNameByte (c : ascii) : bool :=
  let n := nat_of_ascii c in
  (isLetter c || ((48 <=? n) && (n <=? 57)) || (n =? 45) || (n =? 46))%nat.

Definition isTextByte (c : ascii) : bool :=
  let n := nat_of_ascii c in
  ((n =? 9) || (n =? 10) || ((32 <=? n) && (n <? 128)))%nat
  && negb (Ascii.eqb c "&" || Ascii.eqb c "<" || Ascii.eqb c "]").

(** The longest prefix of [s] made of bytes in [p], and the rest. *)
Fixpoint span (p : ascii -> bool) (s : string) : string * string :=
  match s with
  | EmptyString => (EmptyString, EmptyString)
  | String c s' =>
    if p c then let (n, r) := span p s' in (String c n, r)
    else (EmptyString, s)
  end.

Definition isName (n : string) : bool :=
  match n with
  | EmptyString => false
  | String c _ => isLetter c
  end.

Fixpoint tokenize (fuel : nat) (s : string) : option (list Token) :=
  match fuel with
  | O => match s with EmptyString => Some [] | _ => None end
  | S fuel' =>
    match s with
    | EmptyString => Some []
    | String c s1 =>
      if Ascii.eqb c "<" then
        match s1 with
        | String c1 s2 =>
          if Ascii.eqb c1 "/" then
            let (n, r) := span isNameByte s2 in
            match r with
            | String c2 r' =>
              if isName n && Ascii.eqb c2 ">" then
                option_map (cons (TEndElement n)) (tokenize fuel' r')
              else None
            | EmptyString => None
            end
          else
            let (n, r) := span isNameByte s1 in
            match r with
            | String c2 r' =>
              if isName n && Ascii.eqb c2 ">" then
                option_map (cons (TStartElement n)) (tokenize fuel' r')
              else if isName n && Ascii.eqb c2 "/" then
                match r' with
                | String c3 r'' =>
                  if Ascii.eqb c3 ">" then
                    option_map (fun ts => TStartElement n :: TEndElement n :: ts)
                               (tokenize fuel' r'')
                  else None
                | EmptyString => None
                end
              else None
            | EmptyString => None
            end
        | EmptyString => None
        end
      else if isTextByte c then
        let (t, r) := span isTextByte s in
        option_map (cons (TCharData t)) (tokenize fuel' r)
      else None
    end
  end.

(** Every token takes a byte at least. *)
Definition Tokens (s : string) : option (list Token) :=
  tokenize (String.length s) s.

(** *** Well-formed content *)

(** A sequence of elements and text, each element with its own content. *)
Inductive Content : Type :=
| NoContent
| Element (name : string) (children : Content) (siblings : Content)
| Text (data : string) (siblings : Content).

(** The tokens the decoder reads for it. *)
Fixpoint tokensOf (c : Content) : list Token :=
  match c with
  | NoContent => []
  | Element n children siblings =>
    (TStartElement n :: tokensOf children ++ TEndElement n :: tokensOf siblings)%list
  | Text data siblings => TCharData data :: tokensOf siblings
  end.

(** Whether one of the elements of the sequence itself is named [n]. *)
Fixpoint hasElement (n : string) (c : Content) : bool :=
  match c with
  | NoContent => false
  | Element m _ siblings => String.eqb m n || hasElement n siblings
  | Text _ siblings => hasElement n siblings
  end.

End xml.

(** ** [regexp] *)

(** Go's [regexp] returns the leftmost match and, among the matches that
    start there, the one a backtracking search finds first.  The matcher
    below is that backtracking search, in continuation-passing style, for
    the operators [ops.go] uses.  Literals and classes are ASCII, so they
    are compared with the first byte; [.] consumes one rune. *)
Module regexp.

(** What matches one character. *)
Inductive atom : Type :=
| Lit (c : ascii)               (* a literal ASCII character *)
| Class (p : ascii -> bool)     (* a bracket expression over ASCII *)
| AnyNotNL.                     (* [.] *)

Inductive regex : Type :=
| Atom (a : atom)
| Cat (r1 r2 : regex)           (* r1 r2 *)
| Cap (i : nat) (r : regex)     (* ( r ), the i-th capturing group *)
| Quest (r : regex)             (* (?: r )?  *)
| Plus (a : atom)               (* a+  *)
| PlusLazy (a : atom).          (* a+? *)

(** The text of each capturing group; a group that did not take part in
    the match reads as the empty string, as in [FindStringSubmatch]. *)
Definition Caps : Type := nat -> string.

Definition noCaps : Caps := fun _ => EmptyString.

Definition setCap (i : nat) (v : string) (c : Caps) : Caps :=
  fun j => if Nat.eqb j i then v else c j.

(** The rest of the input after one character matching [a]. *)
Definition matchAtom (a : atom) (s : string) : option string :=
  match a with
  | Lit c =>
    match s with
    | String b s' => if Ascii.eqb b c then Some s' else None
    | EmptyString => None
    end
  | Class p =>
    match s with
    | String b s' => if p b then Some s' else None
    | EmptyString => None
    end
  | AnyNotNL =>
    let (r, width) := utf8.DecodeRune s in
    if Nat.eqb width 0 then None
    else if Z.eqb r 10 then None
    else Some (drop width s)
  end.

Section Exec.

Variable R : Type.

(** [a+]: one more repetition is tried before the continuation. *)
Fixpoint plusGreedy (fuel : nat) (a : atom) (s : string)
         (k : string -> option R) : option R :=
  match fuel with
  | O => None
  | S fuel' =>
    match matchAtom a s with
    | None => None
    | Some s' =>
      match plusGreedy fuel' a s' k with
      | Some x => Some x
      | None => k s'
      end
    end
  end.

(** [a+?]: the continuation is tried before one more repetition. *)
Fixpoint plusLazy (fuel : nat) (a : atom) (s : string)
         (k : string -> option R) : option R :=
  match fuel with
  | O => None
  | S fuel' =>
    match matchAtom a s with
    | None => None
    | Some s' =>
      match k s' with
      | Some x => Some x
      | None => plusLazy fuel' a s' k
      end
    end
  end.

(** The backtracking search for a match of [r] at the start of [s],
    followed by the continuation [k].  [fuel] bounds the repetitions
    of [+]; each consumes a byte, so the length of [s] is enough. *)
Fixpoint exec (fuel : nat) (r : regex) (s : string) (c : Caps)
         (k : string -> Caps -> option R) {struct r} : option R :=
  match r with
  | Atom a =>
    match matchAtom a s with
    | Some s' => k s' c
    | None => None
    end
  | Cat r1 r2 => exec fuel r1 s c (fun s' c' => exec fuel r2 s' c' k)
  | Cap i r1 =>
    exec fuel r1 s c
         (fun s' c' =>
            k s' (setCap i (take (String.length s - String.length s') s) c'))
  | Quest r1 =>
    match exec fuel r1 s c k with
    | Some x => Some x
    | None => k s c
    end
  | Plus a => plusGreedy fuel a s (fun s' => k s' c)
  | PlusLazy a => plusLazy fuel a s (fun s' => k s' c)
  end.

End Exec.

(** [re.NumSubexp()]. *)
Fixpoint NumSubexp (r : regex) : nat :=
  match r with
  | Atom _ | Plus _ | PlusLazy _ => 0
  | Cat r1 r2 => Nat.max (NumSubexp r1) (NumSubexp r2)
  | Cap i r1 => Nat.max i (NumSubexp r1)
  | Quest r1 => NumSubexp r1
  end.

(** A match as [FindStringSubmatch] returns it: the matched text, then
    the text of each group. *)
Definition Submatch : Type := list string.

(** The first match of [re] that starts at the beginning of [s] and the
    input that follows it. *)
Definition matchHere (re : regex) (s : string) : option (Submatch * string) :=
  exec (String.length s) re s noCaps
       (fun s' c' =>
          Some (take (String.length s - String.length s') s
                  :: map c' (seq 1 (NumSubexp re)), s')).

(** The leftmost match in [s]: the number of bytes before it, the match
    and the input after it.  Start positions are tried byte by byte. *)
Fixpoint search (re : regex) (s : string) : option (nat * Submatch * string) :=
  match matchHere re s with
  | Some (m, rest) => Some (O, m, rest)
  | None =>
    match s with
    | EmptyString => None
    | String _ s' =>
      match search re s' with
      | Some (n, m, rest) => Some (S n, m, rest)
      | None => None
      end
    end
  end.

(** The loop of [re.allMatches]: [s] is the input from [pos] on and
    [afterMatch] tells that [pos] is the end of the previous match.  An
    empty match at [pos] moves [pos] one rune ahead and is dropped when it
    touches the previous match. *)
Fixpoint allMatches (fuel : nat) (re : regex) (s : string)
         (afterMatch : bool) : list Submatch :=
  match fuel with
  | O => []
  | S fuel' =>
    match search re s with
    | None => []
    | Some (n, m, rest) =>
      if Nat.eqb n 0 && Nat.eqb (String.length rest) (String.length s) then
        let width := snd (utf8.DecodeRune s) in
        let more := if Nat.eqb width 0 then []
                    else allMatches fuel' re (drop width s) false in
        if afterMatch then more else m :: more
      else m :: allMatches fuel' re rest true
    end
  end.

(** [re.FindAllStringSubmatch(s, -1)]. *)
Definition FindAllStringSubmatch (re : regex) (s : string) : list Submatch :=
  allMatches (S (String.length s)) re s false.

End regexp.

(** ** What [ops.go] takes from its environment *)

(** [Time] stands for [time.Time], with [t.Format(time.RFC3339)], and
    [Value] for the Go values, other than nil, strings, byte slices and
    [URL]s, that a caller passes as [any]. *)
Class Runtime : Type := {
  Time : Type;
  FormatRFC3339 : Time -> string;
  Value : Type
}.

(** ** [time] *)
Module time.

(** [time.Duration]: an [int64] count of nanoseconds. *)
Definition Duration : Type := Z.

Definition Second : Duration := 1000000000%Z.

(** The conversion [float64(n)] of an integer below [2^63] in absolute
    value. *)
Definition float64_of_int (n : Z) : float :=
  if (n <? 0)%Z then PrimFloat.opp (PrimFloat.of_uint63 (Uint63.of_Z (- n)))
  else PrimFloat.of_uint63 (Uint63.of_Z n).

(** The conversion [int64(f)] of a finite float in the range of [int64]:
    the fraction is discarded. *)
Definition int64_of_float (f : float) : Z :=
  match Prim2SF f with
  | S754_finite sign m e =>
    let v := if (0 <=? e)%Z then Z.shiftl (Zpos m) e
             else Z.shiftr (Zpos m) (- e) in
    if sign then (- v)%Z else v
  | _ => 0%Z
  end.

(** [d.Seconds()]. *)
Definition Seconds (d : Duration) : float :=
  let sec := Z.quot d Second in
  let nsec := Z.rem d Second in
  PrimFloat.add (float64_of_int sec)
                (PrimFloat.div (float64_of_int nsec) (float64_of_int 1000000000)).

End time.

(** ** Package [netconf] *)

(** [fmt.Errorf] with a constant format. *)
Definition Errorf (msg : string) : error := errorString msg.

Definition ExtantBool : Type := bool.

Module ExtantBool.

Definition MarshalXML (b : ExtantBool) (e : xml.Encoder)
           (start : xml.StartElement) : xml.Encoder * option error :=
  if negb b then (e, None)
  else xml.EncodeElement xml.emptyStruct start e.

(** [b] is the value the receiver points to; the result is its value on
    return. *)
Definition UnmarshalXML (b : ExtantBool) (d : xml.Decoder)
           (start : xml.StartElement)
  : ExtantBool * option error * xml.Decoder :=
  match xml.DecodeElement d start with
  | (Some err, d') => (b, Some err, d')
  | (None, d') => (true, None, d')
  end.

End ExtantBool.

Record OKResp : Type := mkOKResp { OK : ExtantBool }.

Definition Datastore : Type := string.

Definition escapeXML (input : string) : string * option error :=
  match xml.EscapeText input with
  | (_, Some err) => ("", Some err)
  | (buf, None) => (buf, None)
  end.

Module Datastore.

Definition MarshalXML (s : Datastore) (e : xml.Encoder)
           (start : xml.StartElement) : xml.Encoder * option error :=
  if String.eqb s "" then
    (e, Some (Errorf "datastores cannot be empty"))
  else
    match escapeXML s with
    | (_, Some (errorString msg)) =>
      (e, Some (Errorf ("invalid string element: " ++ msg)))
    | (escaped, None) =>
      xml.EncodeElement (xml.innerXML ("<" ++ escaped ++ "/>")) start e
    end.

End Datastore.

Definition URL : Type := string.

Definition Running : Datastore := "running".
Definition Candidate : Datastore := "candidate".
Definition Startup : Datastore := "startup".

Record GetConfigReq : Type := mkGetConfigReq {
  GetConfigReq_Source : Datastore;
  GetConfigReq_Filter : string
}.

Record GetConfigReply : Type := mkGetConfigReply { Config : string }.

(** The pattern of [parseXPathToXML]:
    [/([\w-]+)(?:\[(.+?)=['"](.+?)['"]\])?] *)
Definition isWordOrDash (c : ascii) : bool :=
  let n := nat_of_ascii c in
  (((48 <=? n) && (n <=? 57)) || ((65 <=? n) && (n <=? 90))
   || ((97 <=? n) && (n <=? 122)) || (n =? 95) || (n =? 45))%nat.

Definition isQuote (c : ascii) : bool :=
  Ascii.eqb c squote || Ascii.eqb c dquote.

Definition xpathRe : regexp.regex :=
  let A := regexp.Atom in
  let L := fun c => regexp.Atom (regexp.Lit c) in
  regexp.Cat (L "/"%char)
    (regexp.Cat (regexp.Cap 1 (regexp.Plus (regexp.Class isWordOrDash)))
       (regexp.Quest
          (regexp.Cat (L "["%char)
          (regexp.Cat (regexp.Cap 2 (regexp.PlusLazy regexp.AnyNotNL))
          (regexp.Cat (L "="%char)
          (regexp.Cat (A (regexp.Class isQuote))
          (regexp.Cat (regexp.Cap 3 (regexp.PlusLazy regexp.AnyNotNL))
          (regexp.Cat (A (regexp.Class isQuote))
                      (L "]"%char))))))))).

(** [match[i]]; the matches of [xpathRe] have four entries. *)
Definition sub (m : regexp.Submatch) (i : nat) : string := nth i m "".

(** The body of the loop over the matches: the buffer and the open tags. *)
Definition parseStep (st : string * list string) (m : regexp.Submatch)
  : string * list string :=
  let (buffer, openTags) := st in
  let element := sub m 1 in
  let buffer := buffer ++ ("<" ++ element ++ ">") in
  let openTags := (openTags ++ [element])%list in
  if negb (String.eqb (sub m 2) "") && negb (String.eqb (sub m 3) "") then
    let conditionTag := sub m 2 in
    let value := sub m 3 in
    (buffer ++ ("<" ++ conditionTag ++ ">" ++ html.EscapeString value
                    ++ "</" ++ conditionTag ++ ">"), openTags)
  else (buffer, openTags).

(** The loop closing the open tags, from the last one to the first. *)
Definition closeTags (buffer : string) (openTags : list string) : string :=
  fold_left (fun buf tag => buf ++ ("</" ++ tag ++ ">")) (rev openTags) buffer.

Definition parseXPathToXML (xpath : string) : string * option error :=
  if negb (HasPrefix xpath "/") then
    ("", Some (errorString "invalid XPath format: must start with '/'"))
  else
    let matches := regexp.FindAllStringSubmatch xpathRe xpath in
    if Nat.eqb (List.length matches) 0 then
      ("", Some (Errorf "invalid XPath format"))
    else
      let (buffer, openTags) := fold_left parseStep matches ("", []) in
      (closeTags buffer openTags, None).

(** [fmt.Sprintf(`<filter type="subtree">%s</filter>`, subtree)]. *)
Definition subtreeFilter (subtree : string) : string :=
  "<filter type=" ++ dq ++ "subtree" ++ dq ++ ">" ++ subtree ++ "</filter>".

(** [rpcOptions] is a function on a pointer to a [GetConfigReq]: a request
    transformer. *)
Definition rpcOptions : Type := GetConfigReq -> GetConfigReq.

Definition WithFilter (xpath : string) : rpcOptions :=
  fun c =>
    match parseXPathToXML xpath with
    | (subtree, None) =>
      mkGetConfigReq (GetConfigReq_Source c) (subtreeFilter subtree)
    | (_, Some _) => c
    end.

(** *** [edit-config] *)

Definition MergeStrategy : Type := string.
Definition TestStrategy : Type := string.
Definition ErrorStrategy : Type := string.

(** A Go value of type [any], as the type switch of [EditConfig] sees it.
    [innerxml_any] is a value of the anonymous struct type with the single
    field [Inner []byte `xml:",innerxml"`]. *)
Inductive any `{Runtime} : Type :=
| nil_any
| string_any (v : string)
| bytes_any (v : string)
| URL_any (v : URL)
| innerxml_any (Inner : string)
| value_any (v : Value).

Record EditConfigReq `{Runtime} : Type := mkEditConfigReq {
  EditConfigReq_Target : Datastore;
  EditConfigReq_DefaultMergeStrategy : MergeStrategy;
  EditConfigReq_TestStrategy : TestStrategy;
  EditConfigReq_ErrorStrategy : ErrorStrategy;
  EditConfigReq_Config : any;
  EditConfigReq_URL : string
}.

(** The implementations of the interface [EditConfigOption]; its method
    [apply] is not exported, so there are no others. *)
Inductive EditConfigOption : Type :=
| defaultMergeStrategy (o : MergeStrategy)
| testStrategy (o : TestStrategy)
| errorStrategy (o : ErrorStrategy).

Module EditConfigOption.

Definition apply `{Runtime} (o : EditConfigOption) (req : EditConfigReq)
  : EditConfigReq :=
  match o with
  | defaultMergeStrategy o =>
    mkEditConfigReq (EditConfigReq_Target req) o
                    (EditConfigReq_TestStrategy req)
                    (EditConfigReq_ErrorStrategy req)
                    (EditConfigReq_Config req) (EditConfigReq_URL req)
  | testStrategy o =>
    mkEditConfigReq (EditConfigReq_Target req)
                    (EditConfigReq_DefaultMergeStrategy req) o
                    (EditConfigReq_ErrorStrategy req)
                    (EditConfigReq_Config req) (EditConfigReq_URL req)
  | errorStrategy o =>
    mkEditConfigReq (EditConfigReq_Target req)
                    (EditConfigReq_DefaultMergeStrategy req)
                    (EditConfigReq_TestStrategy req) o
                    (EditConfigReq_Config req) (EditConfigReq_URL req)
  end.

End EditConfigOption.

Definition WithDefaultMergeStrategy (op : MergeStrategy) : EditConfigOption :=
  defaultMergeStrategy op.
Definition WithTestStrategy (op : TestStrategy) : EditConfigOption :=
  testStrategy op.
Definition WithErrorStrategy (opt : ErrorStrategy) : EditConfigOption :=
  errorStrategy opt.

(** *** [commit] *)

Record CommitReq : Type := mkCommitReq {
  Confirmed : ExtantBool;
  ConfirmTimeout : Z;
  Persist : string;
  PersistID : string
}.

(** The implementations of the interface [CommitOption]. *)
Inductive CommitOption : Type :=
| confirmed (o : bool)
| confirmedTimeout (o : time.Duration)
| persist (o : string)
| persistID (o : string).

Module CommitOption.

Definition apply (o : CommitOption) (req : CommitReq) : CommitReq :=
  match o with
  | confirmed _ =>
    mkCommitReq true (ConfirmTimeout req) (Persist req) (PersistID req)
  | confirmedTimeout o =>
    mkCommitReq true (time.int64_of_float (time.Seconds o))
                (Persist req) (PersistID req)
  | persist id =>
    mkCommitReq true (ConfirmTimeout req) id (PersistID req)
  | persistID id =>
    mkCommitReq (Confirmed req) (ConfirmTimeout req) (Persist req) id
  end.

End CommitOption.

Definition WithConfirmed : CommitOption := confirmed true.
Definition WithConfirmedTimeout (timeout : time.Duration) : CommitOption :=
  confirmedTimeout timeout.
Definition WithPersist (id : string) : CommitOption := persist id.
Definition WithPersistID (id : string) : CommitOption := persistID id.

(** *** [create-subscription] *)

Record CreateSubscriptionReq : Type := mkCreateSubscriptionReq {
  Stream : string;
  CreateSubscriptionReq_Filter : string;
  StartTime : string;
  EndTime : string
}.

(** The implementations of the interface [CreateSubscriptionOption]. *)
Inductive CreateSubscriptionOption `{Runtime} : Type :=
| stream (o : string)
| startTime (o : Time)
| endTime (o : Time)
| filter (o : string).

Module CreateSubscriptionOption.

Definition apply `{Runtime} (o : CreateSubscriptionOption)
           (req : CreateSubscriptionReq) : CreateSubscriptionReq :=
  match o with
  | stream o =>
    mkCreateSubscriptionReq o (CreateSubscriptionReq_Filter req)
                            (StartTime req) (EndTime req)
  | startTime o =>
    mkCreateSubscriptionReq (Stream req) (CreateSubscriptionReq_Filter req)
                            (FormatRFC3339 o) (EndTime req)
  | endTime o =>
    mkCreateSubscriptionReq (Stream req) (CreateSubscriptionReq_Filter req)
                            (StartTime req) (FormatRFC3339 o)
  | filter o =>
    match parseXPathToXML o with
    | (subtree, None) =>
      mkCreateSubscriptionReq (Stream req) (subtreeFilter subtree)
                              (StartTime req) (EndTime req)
    | (_, Some _) => req
    end
  end.

End CreateSubscriptionOption.

Definition WithStreamOption `{Runtime} (s : string) : CreateSubscriptionOption :=
  stream s.
Definition WithStartTimeOption `{Runtime} (st : Time) : CreateSubscriptionOption :=
  startTime st.
Definition WithEndTimeOption `{Runtime} (et : Time) : CreateSubscriptionOption :=
  endTime et.
Definition WithFilterOption `{Runtime} (xpath : string) : CreateSubscriptionOption :=
  filter xpath.

(** ** Operations on a session *)

(** The request handed to [Session.Call]. *)
Inductive Request `{Runtime} : Type :=
| GetConfigCall (req : GetConfigReq)
| EditConfigCall (req : EditConfigReq)
| CommitCall (req : CommitReq)
| CreateSubscriptionCall (req : CreateSubscriptionReq).

(** What [Session.Call] stored in the response it was given. *)
Inductive Response : Type :=
| GetConfigReplyResp (resp : GetConfigReply)
| OKRespResp (resp : OKResp).

(** An operation either returns, or invokes [Session.Call] and goes on with
    the response and the error of the call. *)
Inductive Op `{Runtime} (A : Type) : Type :=
| Return (a : A)
| Call (req : Request) (k : Response -> option error -> Op A).

Arguments Return {_ A} a.
Arguments Call {_ A} req k.

(** The requests an operation sends, in order, when [Session.Call] is
    [call] and the session state is of type [S]. *)
Fixpoint run `{Runtime} {A S : Type}
         (call : Request -> S -> Response * option error * S)
         (op : Op A) (s : S) : A * list Request * S :=
  match op with
  | Return a => (a, [], s)
  | Call req k =>
    let '(resp, err, s') := call req s in
    let '(a, sent, s'') := run call (k resp err) s' in
    (a, req :: sent, s'')
  end.

Module Session.

(** The request of [GetConfig] after its loop over [opts]. *)
Definition getConfigReq (source : Datastore) (opts : list rpcOptions)
  : GetConfigReq :=
  fold_left (fun req opt => opt req) opts (mkGetConfigReq source "").

Definition GetConfig `{Runtime} (source : Datastore) (opts : list rpcOptions)
  : Op (string * option error) :=
  let req := getConfigReq source opts in
  Call (GetConfigCall req)
       (fun resp err =>
          match err with
          | Some err => Return ("", Some err)
          | None =>
            Return (match resp with
                    | GetConfigReplyResp resp => Config resp
                    | _ => ""
                    end, None)
          end).

(** The request of [EditConfig] after its type switch and its loop over
    [opts]. *)
Definition editConfigReq `{Runtime} (target : Datastore) (config : any)
           (opts : list EditConfigOption) : EditConfigReq :=
  let req := mkEditConfigReq target "" "" "" nil_any "" in
  let req :=
      match config with
      | string_any v =>
        mkEditConfigReq (EditConfigReq_Target req)
                        (EditConfigReq_DefaultMergeStrategy req)
                        (EditConfigReq_TestStrategy req)
                        (EditConfigReq_ErrorStrategy req)
                        (innerxml_any v) (EditConfigReq_URL req)
      | bytes_any v =>
        mkEditConfigReq (EditConfigReq_Target req)
                        (EditConfigReq_DefaultMergeStrategy req)
                        (EditConfigReq_TestStrategy req)
                        (EditConfigReq_ErrorStrategy req)
                        (innerxml_any v) (EditConfigReq_URL req)
      | URL_any v =>
        mkEditConfigReq (EditConfigReq_Target req)
                        (EditConfigReq_DefaultMergeStrategy req)
                        (EditConfigReq_TestStrategy req)
                        (EditConfigReq_ErrorStrategy req)
                        (EditConfigReq_Config req) v
      | _ =>
        mkEditConfigReq (EditConfigReq_Target req)
                        (EditConfigReq_DefaultMergeStrategy req)
                        (EditConfigReq_TestStrategy req)
                        (EditConfigReq_ErrorStrategy req)
                        config (EditConfigReq_URL req)
      end in
  fold_left (fun req opt => EditConfigOption.apply opt req) opts req.

Definition EditConfig `{Runtime} (target : Datastore) (config : any)
           (opts : list EditConfigOption) : Op (option error) :=
  let req := editConfigReq target config opts in
  Call (EditConfigCall req) (fun _ err => Return err).

(** The request of [Commit] after its loop over [opts]. *)
Definition commitReq (opts : list CommitOption) : CommitReq :=
  fold_left (fun req opt => CommitOption.apply opt req) opts
            (mkCommitReq false 0 "" "").

Definition Commit `{Runtime} (opts : list CommitOption) : Op (option error) :=
  let req := commitReq opts in
  if negb (String.eqb (PersistID req) "") && Confirmed req then
    Return (Some (Errorf "PersistID cannot be used with Confirmed/ConfirmedTimeout or Persist options"))
  else
    Call (CommitCall req) (fun _ err => Return err).

(** The request of [CreateSubscription] after its loop over [opts]. *)
Definition createSubscriptionReq `{Runtime}
           (opts : list CreateSubscriptionOption) : CreateSubscriptionReq :=
  fold_left (fun req opt => CreateSubscriptionOption.apply opt req) opts
            (mkCreateSubscriptionReq "" "" "" "").

Definition CreateSubscription `{Runtime} (opts : list CreateSubscriptionOption)
  : Op (option error) :=
  let req := createSubscriptionReq opts in
  Call (CreateSubscriptionCall req) (fun _ err => Return err).

End Session.

(** A runtime for closed examples: a time is given by its RFC3339 text. *)
Definition textRuntime : Runtime :=
  {| Time := string; FormatRFC3339 := fun t => t; Value := unit |}.

(** The options of [Commit] that ask for a confirmed commit:
    [WithConfirmed], [WithConfirmedTimeout] and [WithPersist]. *)
Definition isConfirmedDirective (o : CommitOption) : bool :=
  match o with
  | persistID _ => false
  | _ => true
  end.

(** The error of [Commit] for a persist-id with a confirmed commit. *)
Definition errPersistID : error :=
  Errorf "PersistID cannot be used with Confirmed/ConfirmedTimeout or Persist options".

(** [isEmptyValue] of [encoding/xml] on the fields [Config] and [URL] of
    [EditConfigReq], which are both tagged [omitempty]: an interface value
    is empty when it is nil, a string when it has no byte.  A field that
    is empty is left out of the encoding of the request; what is written
    for a [Config] that is not empty is up to the value it holds. *)
Definition isEmptyConfig `{Runtime} (req : EditConfigReq) : bool :=
  match EditConfigReq_Config req with
  | nil_any => true
  | _ => false
  end.

Definition isEmptyURL `{Runtime} (req : EditConfigReq) : bool :=
  String.eqb (EditConfigReq_URL req) "".

(** Every byte of [s] satisfies [p]. *)
Fixpoint allBytes (p : ascii -> bool) (s : string) : bool :=
  match s with
  | EmptyString => true
  | String c s' => p c && allBytes p s'
  end.

(** The first byte of [s] satisfies [p]. *)
Definition startsWith (p : ascii -> bool) (s : string) : bool :=
  match s with
  | EmptyString => false
  | String c _ => p c
  end.

(** [s] holds a segment: a separator followed by a character of an element
    name, one of [0-9A-Za-z_-]. *)
Fixpoint hasSegment (s : string) : bool :=
  match s with
  | EmptyString => false
  | String c s' =>
    (Ascii.eqb c "/" && startsWith isWordOrDash s') || hasSegment s'
  end.

Definition notSlash (c : ascii) : bool := negb (Ascii.eqb c "/").
Definition notQuote (c : ascii) : bool := negb (isQuote c).

(** The predicate of a segment, the part of [xpathRe] in [(?: )?]. *)
Definition predicateRe : regexp.regex :=
  match xpathRe with
  | regexp.Cat _ (regexp.Cat _ (regexp.Quest g)) => g
  | _ => xpathRe
  end.

(** A tag name that [xml.Tokens] reads. *)
Definition validName (n : string) : bool :=
  xml.isName n && allBytes xml.isNameByte n.

(** The path of the documented example. *)
Definition examplePath : string :=
  "/library/book[title=" ++ dq ++ "Go Programming" ++ dq ++ "]".

(** An ASCII byte that [xml.EscapeText] copies as it is. *)
Definition isPlainByte (c : ascii) : bool :=
  (nat_of_ascii c <? 128)%nat
  && match xml.escapeRune (byteZ c) 1 with
     | None => true
     | Some _ => false
     end.

(** A string of such bytes. *)
Fixpoint isPlain (s : string) : bool :=
  match s with
  | EmptyString => true
  | String c s' => isPlainByte c && isPlain s'
  end.

(** ** Paths in the grammar of the translator *)

(** A byte of a multi-byte UTF-8 sequence. *)
Definition isHigh (c : ascii) : bool := (128 <=? nat_of_ascii c)%nat.

(** A byte other than the markup delimiters [<] and [>] and the quotes. *)
Definition notMarkup (c : ascii) : bool :=
  negb (Ascii.eqb c "<" || Ascii.eqb c ">" || Ascii.eqb c dquote
        || Ascii.eqb c squote).

Definition newline : ascii := ascii_of_nat 10.
Definition notNewline (c : ascii) : bool := negb (Ascii.eqb c newline).
Definition notEquals (c : ascii) : bool := negb (Ascii.eqb c "=").

(** An equality predicate [[tag=qvalueq']], with its two quote
    characters. *)
Record Predicate : Type := mkPredicate {
  predTag : string;
  predOpen : ascii;
  predValue : string;
  predClose : ascii
}.

(** A segment [/name] or [/name[tag=qvalueq']]. *)
Record Segment : Type := mkSegment {
  segName : string;
  segPred : option Predicate
}.

Definition predicateText (p : Predicate) : string :=
  "[" ++ predTag p ++ "="
      ++ String (predOpen p) (predValue p ++ String (predClose p) "]").

Definition segmentText (s : Segment) : string :=
  "/" ++ segName s ++ match segPred s with
                      | Some p => predicateText p
                      | None => ""
                      end.

(** The path expression of a list of segments. *)
Fixpoint pathText (segs : list Segment) : string :=
  match segs with
  | [] => ""
  | s :: segs' => segmentText s ++ pathText segs'
  end.

(** The element of the predicate of a segment: its tag around its value,
    escaped. *)
Definition childOf (s : Segment) : string :=
  match segPred s with
  | Some p => "<" ++ predTag p ++ ">" ++ html.EscapeString (predValue p)
                  ++ "</" ++ predTag p ++ ">"
  | None => ""
  end.

(** The document of a list of segments: each segment is an element that
    holds the element of its predicate and then the following segments. *)
Fixpoint nest (segs : list Segment) : string :=
  match segs with
  | [] => ""
  | s :: segs' =>
    "<" ++ segName s ++ ">" ++ childOf s ++ nest segs'
        ++ "</" ++ segName s ++ ">"
  end.

(** The start tags, with the predicate elements, and the end tags of a
    list of segments. *)
Fixpoint opens (segs : list Segment) : string :=
  match segs with
  | [] => ""
  | s :: segs' => ("<" ++ segName s ++ ">") ++ childOf s ++ opens segs'
  end.

Fixpoint closes (segs : list Segment) : string :=
  match segs with
  | [] => ""
  | s :: segs' => closes segs' ++ ("</" ++ segName s ++ ">")
  end.

(** A predicate that the pattern reads as it is written: a tag without
    [=] and a value without quote character, both non-empty and on one
    line, between two quote characters. *)
Definition wfPredicate (p : Predicate) : bool :=
  negb (String.eqb (predTag p) "")
  && allBytes notNewline (predTag p) && allBytes notEquals (predTag p)
  && isQuote (predOpen p) && isQuote (predClose p)
  && negb (String.eqb (predValue p) "")
  && allBytes notNewline (predValue p) && allBytes notQuote (predValue p).

(** A segment with a non-empty name of the characters [0-9A-Za-z_-]. *)
Definition wfSegment (s : Segment) : bool :=
  negb (String.eqb (segName s) "") && allBytes isWordOrDash (segName s)
  && match segPred s with
     | Some p => wfPredicate p
     | None => true
     end.

(** The match of the pattern on a segment. *)
Definition submatchOf (s : Segment) : regexp.Submatch :=
  [segmentText s; segName s;
   match segPred s with Some p => predTag p | None => "" end;
   match segPred s with Some p => predValue p | None => "" end].

(** The input ends, or goes on with a separator. *)
Definition segmentEnd (rest : string) : bool :=
  match rest with
  | EmptyString => true
  | String c _ => Ascii.eqb c "/"
  end.

(** What may follow segment [s] for its match to end after it: anything
    after a predicate; after a name, neither a name character nor [[]. *)
Definition followOK (s : Segment) (rest : string) : bool :=
  match segPred s with
  | Some _ => true
  | None => negb (startsWith isWordOrDash rest)
            && negb (startsWith (fun b => Ascii.eqb b "[") rest)
  end.

(** Text between segment [s] and the next separator. *)
Definition gapOK (s : Segment) (gap : string) : bool :=
  allBytes notSlash gap && followOK s (gap ++ "/").

(** A path whose segments are each followed by such a text. *)
Fixpoint gapText (items : list (Segment * string)) : string :=
  match items with
  | [] => ""
  | (s, gap) :: items' => segmentText s ++ gap ++ gapText items'
  end.

Definition wfItem (item : Segment * string) : bool :=
  wfSegment (fst item) && gapOK (fst item) (snd item).





(** A prefix that the search for the next match passes over. *)
Definition skipped (pre : string) : Prop :=
  forall rest,
    segmentEnd rest = true ->
    regexp.search xpathRe (pre ++ rest)
    = match regexp.search xpathRe rest with
      | Some (n, m, r) => Some (String.length pre + n, m, r)
      | None => None
      end.

Definition samplePath : list Segment :=
  [mkSegment "interfaces" None;
   mkSegment "interface" (Some (mkPredicate "name" squote "eth<0>" dquote));
   mkSegment "mtu" None].

Definition sampleItems : list (Segment * string) :=
  [(mkSegment "a" None, "");
   (mkSegment "b" (Some (mkPredicate "c" squote "d" squote)), "[e='f'] and g");
   (mkSegment "h" None, ".")].

(** ** The kinds of [EditConfigOption] *)

Definition isDefaultMergeStrategy (o : EditConfigOption) : bool :=
  match o with defaultMergeStrategy _ => true | _ => false end.
Definition isTestStrategy (o : EditConfigOption) : bool :=
  match o with testStrategy _ => true | _ => false end.
Definition isErrorStrategy (o : EditConfigOption) : bool :=
  match o with errorStrategy _ => true | _ => false end.

(** ** [URL] as an element *)

(** [e.EncodeElement(&v, start)] for [v] of the anonymous struct type with
    the single field [URL string `xml:"url"`]: the field is an element
    [url] whose text is escaped as [xml.EscapeText] does. *)
Definition EncodeElementURL (url : string) (start : xml.StartElement)
           (e : xml.Encoder) : xml.Encoder * option error :=
  if String.eqb (xml.Local start) "" then
    (e, Some (errorString
                "xml: EncodeElement of StartElement with missing name"))
  else
    let e1 := xml.writeStart start e in
    let e2 := xml.writeStart (xml.mkStart "url") e1 in
    let e3 := e2 ++ xml.escapeText 0 url in
    let e4 := xml.writeEnd (xml.mkStart "url") e3 in
    (xml.writeEnd start e4, None).

Module URL.

Definition MarshalXML (u : URL) (e : xml.Encoder) (start : xml.StartElement)
  : xml.Encoder * option error :=
  EncodeElementURL u start e.

End URL.

(** * Properties *)

Unset Implicit Arguments.

(** ** Strings *)

Lemma append_assoc (a b c : string) : (a ++ b) ++ c = a ++ (b ++ c).
Proof.
  induction a as [|x a IH]; simpl; [reflexivity | now rewrite IH].
Qed.

Lemma append_nil_r (a : string) : a ++ "" = a.
Proof.
  induction a as [|x a IH]; simpl; [reflexivity | now rewrite IH].
Qed.

Lemma length_append (a b : string) :
  String.length (a ++ b) = String.length a + String.length b.
Proof.
  induction a as [|x a IH]; simpl; [reflexivity | now rewrite IH].
Qed.

Lemma length_drop (n : nat) (s : string) :
  String.length (drop n s) = String.length s - n.
Proof.
  revert s; induction n as [|n IH]; intros [|c s]; simpl; auto.
Qed.

Lemma take_append_length (a b : string) :
  take (String.length (a ++ b) - String.length b) (a ++ b) = a.
Proof.
  rewrite length_append.
  replace (String.length a + String.length b - String.length b)
    with (String.length a) by lia.
  induction a as [|x a IH]; simpl.
  - now destruct b.
  - now rewrite IH.
Qed.

Lemma HasPrefix_slash (s : string) :
  HasPrefix s "/" = true <-> exists rest, s = String "/" rest.
Proof.
  unfold HasPrefix. rewrite prefix_correct.
  destruct s as [|c s]; simpl.
  - split; [discriminate | intros [r Hr]; discriminate].
  - assert (H0 : substring 0 0 s = "") by now destruct s.
    rewrite H0. split.
    + intros H; injection H as ->; eauto.
    + intros [r Hr]; injection Hr as -> _; reflexivity.
Qed.

(** ** The path translator rejects a path without a leading separator *)

(** C5: for every input that does not begin with the separator [/],
    [parseXPathToXML] returns no document (the empty string) together with
    the error "invalid XPath format: must start with '/'". *)
Theorem parseXPathToXML_requires_leading_slash (xpath : string) :
  (forall rest, xpath <> String "/" rest) ->
  parseXPathToXML xpath
  = ("", Some (errorString "invalid XPath format: must start with '/'")).
Proof.
  intros Hno. unfold parseXPathToXML.
  destruct (HasPrefix xpath "/") eqn:Hp; [|reflexivity].
  apply HasPrefix_slash in Hp. destruct Hp as [rest ->].
  now elim (Hno rest).
Qed.

Lemma parseXPathToXML_requires_leading_slash_witness :
  parseXPathToXML "library/book"
  = ("", Some (errorString "invalid XPath format: must start with '/'")).
Proof.
  apply parseXPathToXML_requires_leading_slash.
  intros rest H; discriminate H.
Defined.

(** ** The documented example of a path translation *)

Lemma closeTags_reverse (buffer : string) (openTags : list string) :
  closeTags buffer openTags
  = buffer ++ String.concat "" (map (fun tag => "</" ++ tag ++ ">") (rev openTags)).
Proof.
  unfold closeTags. generalize (rev openTags) as l. intros l; revert buffer.
  induction l as [|t l IH]; intros buffer; simpl.
  - now rewrite append_nil_r.
  - rewrite IH. destruct l as [|t' l].
    + simpl. now rewrite !append_nil_r.
    + now rewrite append_assoc.
Qed.

(** C6: translating [/library/book[title="Go Programming"]] succeeds.  The
    pattern finds the segments [library], without predicate, and [book],
    with the predicate [title] = [Go Programming]; the document nests
    [title], with the escaped literal as its text, in [book], and [book] in
    [library]; the open tags are closed from the last to the first; and
    [WithFilter] stores the document wrapped in a [filter] element of type
    [subtree]. *)
Theorem parseXPathToXML_example :
  regexp.FindAllStringSubmatch xpathRe examplePath
  = [ ["/library"; "library"; ""; ""];
      ["/book[title=" ++ dq ++ "Go Programming" ++ dq ++ "]";
       "book"; "title"; "Go Programming"] ]
  /\ html.EscapeString "Go Programming" = "Go Programming"
  /\ parseXPathToXML examplePath
     = ("<library><book><title>Go Programming</title></book></library>", None)
  /\ (forall buffer openTags,
         closeTags buffer openTags
         = buffer ++ String.concat ""
                       (map (fun tag => "</" ++ tag ++ ">") (rev openTags)))
  /\ (forall c : GetConfigReq,
         WithFilter examplePath c
         = mkGetConfigReq
             (GetConfigReq_Source c)
             ("<filter type=" ++ dq ++ "subtree" ++ dq ++ ">"
              ++ "<library><book><title>Go Programming</title></book></library>"
              ++ "</filter>")).
Proof.
  assert (Hparse : parseXPathToXML examplePath
     = ("<library><book><title>Go Programming</title></book></library>", None))
    by (vm_compute; reflexivity).
  split; [|split; [|split; [|split]]].
  - vm_compute; reflexivity.
  - vm_compute; reflexivity.
  - exact Hparse.
  - exact closeTags_reverse.
  - intros c. unfold WithFilter. rewrite Hparse. reflexivity.
Qed.

(** ** Datastore selectors *)

Lemma DecodeRune_ascii (c : ascii) (s : string) :
  (nat_of_ascii c <? 128)%nat = true ->
  utf8.DecodeRune (String c s) = (byteZ c, 1).
Proof.
  intros Hc. apply Nat.ltb_lt in Hc.
  unfold utf8.DecodeRune, utf8.first.
  assert (H : (byteZ c <? 128)%Z = true)
    by (apply Z.ltb_lt; unfold byteZ; lia).
  rewrite H. reflexivity.
Qed.

Lemma escapeText_plain (s : string) :
  isPlain s = true -> xml.escapeText 0 s = s.
Proof.
  induction s as [|c s IH]; [reflexivity|].
  cbn [isPlain]. intros H. apply andb_prop in H. destruct H as [Hc Hs].
  unfold isPlainByte in Hc. apply andb_prop in Hc. destruct Hc as [Hlt Hesc].
  cbn [xml.escapeText]. rewrite (DecodeRune_ascii _ _ Hlt).
  destruct (xml.escapeRune (byteZ c) 1); [discriminate|].
  cbn. now rewrite IH.
Qed.

Lemma escapeXML_total (input : string) :
  escapeXML input = (xml.escapeText 0 input, None).
Proof. reflexivity. Qed.

Lemma Datastore_MarshalXML_nonempty (s : Datastore) (e : xml.Encoder)
      (start : xml.StartElement) :
  s <> "" -> xml.Local start <> "" ->
  Datastore.MarshalXML s e start
  = (e ++ "<" ++ xml.Local start ++ ">"
       ++ "<" ++ xml.escapeText 0 s ++ "/>"
       ++ "</" ++ xml.Local start ++ ">", None).
Proof.
  intros Hs Hstart. unfold Datastore.MarshalXML.
  apply String.eqb_neq in Hs. rewrite Hs. rewrite escapeXML_total.
  unfold xml.EncodeElement. apply String.eqb_neq in Hstart. rewrite Hstart.
  unfold xml.writeEnd, xml.writeStart.
  f_equal. now rewrite !append_assoc.
Qed.

(** C8: [Datastore.MarshalXML] returns an error exactly when the
    identifier is the empty string.  For every other identifier, whatever
    bytes it holds, the escaped identifier is written as a tag name and no
    error is returned. *)
Theorem Datastore_MarshalXML_error_iff_empty (s : Datastore) (e : xml.Encoder)
        (start : xml.StartElement) :
  xml.Local start <> "" ->
  (snd (Datastore.MarshalXML s e start) <> None <-> s = "")
  /\ (s <> "" ->
      Datastore.MarshalXML s e start
      = (e ++ "<" ++ xml.Local start ++ ">"
           ++ "<" ++ fst (escapeXML s) ++ "/>"
           ++ "</" ++ xml.Local start ++ ">", None)).
Proof.
  intros Hstart. split.
  - destruct (string_dec s "") as [->|Hs].
    + split; [reflexivity | intros _; simpl; discriminate].
    + rewrite (Datastore_MarshalXML_nonempty s e start Hs Hstart). simpl.
      split; [intros H; now elim H | intros H; now elim Hs].
  - intros Hs. now apply Datastore_MarshalXML_nonempty.
Qed.

Lemma Datastore_MarshalXML_error_iff_empty_witness :
  Datastore.MarshalXML "a<b&c" "" (xml.mkStart "target")
  = ("<target><a&lt;b&amp;c/></target>", None).
Proof.
  refine (proj2 (Datastore_MarshalXML_error_iff_empty
                   "a<b&c" "" (xml.mkStart "target") _) _).
  - simpl; discriminate.
  - discriminate.
Defined.

(** ** Commit *)

Lemma Confirmed_fold (opts : list CommitOption) (req : CommitReq) :
  Confirmed (fold_left (fun req opt => CommitOption.apply opt req) opts req)
  = Confirmed req || existsb isConfirmedDirective opts.
Proof.
  revert req. induction opts as [|o opts IH]; intros req; simpl.
  - now rewrite orb_false_r.
  - rewrite IH. destruct o; simpl;
      now rewrite ?orb_true_r, ?orb_true_l.
Qed.

Lemma Confirmed_commitReq (opts : list CommitOption) :
  Confirmed (Session.commitReq opts) = existsb isConfirmedDirective opts.
Proof. unfold Session.commitReq. now rewrite Confirmed_fold. Qed.

(** The persist-id of the request is the one given last. *)
Lemma PersistID_fold (opts : list CommitOption) (req : CommitReq) :
  (PersistID (fold_left (fun req opt => CommitOption.apply opt req) opts req)
   = PersistID req
   /\ forall id, ~ In (persistID id) opts)
  \/ In (persistID
           (PersistID (fold_left (fun req opt => CommitOption.apply opt req)
                                 opts req))) opts.
Proof.
  revert req. induction opts as [|o opts IH]; intros req; simpl.
  - left. split; [reflexivity | intros id []].
  - destruct (IH (CommitOption.apply o req)) as [[Heq Hno]|Hin].
    + destruct o; simpl in Heq.
      1-3: left; split; [exact Heq|];
        intros id [Hid|Hid]; [discriminate | exact (Hno id Hid)].
      right. left. simpl. f_equal. symmetry. exact Heq.
    + right. right. exact Hin.
Qed.

Lemma Commit_rejected `{Runtime} (opts : list CommitOption) :
  PersistID (Session.commitReq opts) <> "" ->
  Confirmed (Session.commitReq opts) = true ->
  Session.Commit opts = Return (Some errPersistID).
Proof.
  intros Hid Hc. unfold Session.Commit.
  apply String.eqb_neq in Hid. now rewrite Hid, Hc.
Qed.

Lemma Commit_called `{Runtime} (opts : list CommitOption) :
  negb (String.eqb (PersistID (Session.commitReq opts)) "")
  && Confirmed (Session.commitReq opts) = false ->
  Session.Commit opts
  = Call (CommitCall (Session.commitReq opts)) (fun _ err => Return err).
Proof.
  intros Hc. unfold Session.Commit. now rewrite Hc.
Qed.

(** C2: when the option list holds a confirmed directive ([WithConfirmed],
    [WithConfirmedTimeout] or [WithPersist]) and the request it yields has
    a non-empty persist-id, [Commit] returns its validation error without
    invoking [Session.Call]: whatever [Session.Call] is, no request is sent
    and the session is left as it was. *)
Theorem Commit_persistID_with_confirmed_fails_locally
        `{Runtime} (opts : list CommitOption) :
  (exists o, In o opts /\ isConfirmedDirective o = true) ->
  PersistID (Session.commitReq opts) <> "" ->
  Session.Commit opts = Return (Some errPersistID)
  /\ forall (S : Type) (call : Request -> S -> Response * option error * S)
            (s : S),
      run call (Session.Commit opts) s = (Some errPersistID, [], s).
Proof.
  intros [o [Hin Ho]] Hid.
  assert (Hc : Confirmed (Session.commitReq opts) = true).
  { rewrite Confirmed_commitReq. apply existsb_exists. now exists o. }
  rewrite (Commit_rejected opts Hid Hc). split; [reflexivity|].
  intros S call s. reflexivity.
Qed.

Lemma Commit_persistID_with_confirmed_fails_locally_witness :
  @Session.Commit textRuntime
                  [WithPersistID "abc"; WithConfirmedTimeout 600000000000%Z]
  = Return (Some errPersistID).
Proof.
  refine (proj1 (@Commit_persistID_with_confirmed_fails_locally
                   textRuntime
                   [WithPersistID "abc"; WithConfirmedTimeout 600000000000%Z]
                   _ _)).
  - exists (WithConfirmedTimeout 600000000000%Z). split.
    + simpl. right. left. reflexivity.
    + reflexivity.
  - simpl. discriminate.
Defined.

Example WithConfirmedTimeout_ten_minutes :
  ConfirmTimeout (CommitOption.apply (WithConfirmedTimeout 600000000000%Z)
                                     (mkCommitReq false 0 "" ""))
  = 600%Z.
Proof. vm_compute. reflexivity. Qed.

Lemma Commit_outcome `{Runtime} (opts : list CommitOption) :
  Session.Commit opts = Return (Some errPersistID)
  <-> negb (String.eqb (PersistID (Session.commitReq opts)) "")
      && Confirmed (Session.commitReq opts) = true.
Proof.
  unfold Session.Commit.
  destruct (negb (String.eqb (PersistID (Session.commitReq opts)) "")
            && Confirmed (Session.commitReq opts)).
  - split; reflexivity.
  - split; discriminate.
Qed.

Lemma existsb_Permutation {A : Type} (f : A -> bool) (l l' : list A) :
  Permutation l l' -> existsb f l = existsb f l'.
Proof.
  induction 1; simpl; try congruence.
  now rewrite !orb_assoc, (orb_comm (f y)).
Qed.

Lemma PersistID_Permutation (opts opts' : list CommitOption) :
  Permutation opts opts' ->
  (forall a b, In (persistID a) opts -> In (persistID b) opts -> a = b) ->
  PersistID (Session.commitReq opts) = PersistID (Session.commitReq opts').
Proof.
  intros Hperm Hsame. unfold Session.commitReq.
  destruct (PersistID_fold opts (mkCommitReq false 0 "" "")) as [[E N]|I];
    destruct (PersistID_fold opts' (mkCommitReq false 0 "" "")) as [[E' N']|I'].
  - congruence.
  - elim (N _ (Permutation_in _ (Permutation_sym Hperm) I')).
  - elim (N' _ (Permutation_in _ Hperm I)).
  - apply Hsame; [exact I|].
    exact (Permutation_in _ (Permutation_sym Hperm) I').
Qed.

(** C10, as the code has it: applying [WithPersist] sets the confirmed
    flag, and the flag of the request does not depend on the order of the
    options.  The persist-id of the request is the one of the last
    [WithPersistID] option, so the outcome of the validation is the same
    for two orders of an option list whenever its [WithPersistID] options
    all carry the same identifier (in particular when there is at most one
    of them). *)
Theorem Commit_validation_order `{Runtime} :
  (forall id req, Confirmed (CommitOption.apply (WithPersist id) req) = true)
  /\ (forall opts opts',
         Permutation opts opts' ->
         Confirmed (Session.commitReq opts) = Confirmed (Session.commitReq opts'))
  /\ (forall opts opts',
         Permutation opts opts' ->
         (forall a b, In (persistID a) opts -> In (persistID b) opts -> a = b) ->
         (Session.Commit opts = Return (Some errPersistID)
          <-> Session.Commit opts' = Return (Some errPersistID))).
Proof.
  split; [|split].
  - reflexivity.
  - intros opts opts' Hperm. rewrite !Confirmed_commitReq.
    now apply existsb_Permutation.
  - intros opts opts' Hperm Hsame. rewrite !Commit_outcome.
    rewrite (PersistID_Permutation opts opts' Hperm Hsame).
    rewrite !Confirmed_commitReq.
    now rewrite (existsb_Permutation isConfirmedDirective opts opts' Hperm).
Qed.

Lemma Commit_validation_order_witness :
  @Session.Commit textRuntime [WithPersistID "abc"; WithPersist "tok"]
  = Return (Some errPersistID)
  <-> @Session.Commit textRuntime [WithPersist "tok"; WithPersistID "abc"]
      = Return (Some errPersistID).
Proof.
  refine (proj2 (proj2 (@Commit_validation_order textRuntime))
                [WithPersistID "abc"; WithPersist "tok"]
                [WithPersist "tok"; WithPersistID "abc"] _ _).
  - apply perm_swap.
  - intros a b Ha Hb. unfold WithPersistID, WithPersist in Ha, Hb.
    destruct Ha as [Ha|[Ha|[]]], Hb as [Hb|[Hb|[]]]; congruence.
Defined.

(** C10 as stated fails: with two [WithPersistID] options, one of them
    with the empty identifier, one order of the list passes the validation
    and sends the request, the other is rejected. *)
Lemma Commit_validation_order_counterexample :
  Permutation [WithConfirmed; WithPersistID "abc"; WithPersistID ""]
              [WithConfirmed; WithPersistID ""; WithPersistID "abc"]
  /\ @Session.Commit textRuntime
                     [WithConfirmed; WithPersistID "abc"; WithPersistID ""]
     = Call (CommitCall (mkCommitReq true 0 "" "")) (fun _ err => Return err)
  /\ @Session.Commit textRuntime
                     [WithConfirmed; WithPersistID ""; WithPersistID "abc"]
     = Return (Some errPersistID).
Proof.
  split; [|split].
  - apply perm_skip, perm_swap.
  - reflexivity.
  - reflexivity.
Qed.

(** ** EditConfig *)

Lemma EditConfigOption_fold_Config `{Runtime} (opts : list EditConfigOption)
      (req : EditConfigReq) :
  EditConfigReq_Config
    (fold_left (fun req opt => EditConfigOption.apply opt req) opts req)
  = EditConfigReq_Config req
  /\ EditConfigReq_URL
       (fold_left (fun req opt => EditConfigOption.apply opt req) opts req)
     = EditConfigReq_URL req.
Proof.
  revert req. induction opts as [|o opts IH]; intros req; simpl.
  - split; reflexivity.
  - destruct (IH (EditConfigOption.apply o req)) as [-> ->].
    destruct o; split; reflexivity.
Qed.

(** C7, what the code does: [EditConfig] checks nothing about its
    [config] argument.  Whatever the argument and the options, it returns
    no error of its own and hands one request to [Session.Call]: a [URL]
    is stored in [url] and leaves [config] nil, a string or a byte slice
    is stored, as it is, as the inner content of [config] and leaves
    [url] empty, and any other argument is stored in [config] as it is.
    So one of the two fields at least is empty and is left out of the
    encoding: the request never holds both.  But both fields are empty
    exactly for a nil argument and for the empty [URL]: the request that
    is sent then holds neither a [config] nor a [url], where the comment
    on the two fields says that it is either of these two values. *)
Theorem EditConfig_sends_neither_config_nor_url `{Runtime}
        (target : Datastore) (config : any) (opts : list EditConfigOption) :
  let req := Session.editConfigReq target config opts in
  Session.EditConfig target config opts
  = Call (EditConfigCall req) (fun _ err => Return err)
  /\ (forall (S : Type) (call : Request -> S -> Response * option error * S)
             (s : S),
         run call (Session.EditConfig target config opts) s
         = (snd (fst (call (EditConfigCall req) s)), [EditConfigCall req],
            snd (call (EditConfigCall req) s)))
  /\ match config with
     | URL_any v => EditConfigReq_Config req = nil_any /\ EditConfigReq_URL req = v
     | string_any v | bytes_any v =>
       EditConfigReq_Config req = innerxml_any v /\ EditConfigReq_URL req = ""
     | _ => EditConfigReq_Config req = config /\ EditConfigReq_URL req = ""
     end
  /\ isEmptyConfig req || isEmptyURL req = true
  /\ (config = nil_any \/ config = URL_any ""
      <-> isEmptyConfig req = true /\ isEmptyURL req = true).
Proof.
  intros req. split; [reflexivity|]. split.
  { intros S call s. unfold Session.EditConfig. fold req. cbn [run].
    destruct (call (EditConfigCall req) s) as [[resp err] s']. reflexivity. }
  unfold isEmptyConfig, isEmptyURL. subst req. unfold Session.editConfigReq.
  match goal with
  | |- context [fold_left ?f opts ?r] =>
    destruct (EditConfigOption_fold_Config opts r) as [-> ->]
  end.
  destruct config as [|v|v|v|v|v]; simpl.
  2,3,5,6: split; [split; reflexivity|]; split; [reflexivity|];
    split; [intros [H1|H1]; discriminate H1 | intros [H1 _]; discriminate H1].
  - split; [split; reflexivity|]. split; [reflexivity|].
    split; [intros _; split; reflexivity | intros _; now left].
  - split; [split; reflexivity|]. split; [reflexivity|].
    destruct (String.eqb_spec v "") as [->|Hv].
    + split; [intros _; split; reflexivity | intros _; now right].
    + split; [intros [H1|H1]; [discriminate H1 | congruence]
             | intros [_ H2]; discriminate H2].
Qed.

Lemma EditConfig_sends_neither_config_nor_url_witness :
  let req := @Session.editConfigReq textRuntime Running nil_any [] in
  @Session.EditConfig textRuntime Running nil_any []
  = Call (EditConfigCall req) (fun _ err => Return err)
  /\ req = @mkEditConfigReq textRuntime Running "" "" "" nil_any ""
  /\ isEmptyConfig req = true /\ isEmptyURL req = true
  /\ isEmptyConfig
       (@Session.editConfigReq textRuntime Candidate (URL_any "")
                               [WithTestStrategy "test-then-set"]) = true
  /\ isEmptyURL
       (@Session.editConfigReq textRuntime Candidate (URL_any "")
                               [WithTestStrategy "test-then-set"]) = true.
Proof.
  intros req.
  pose proof (@EditConfig_sends_neither_config_nor_url
                textRuntime Running nil_any []) as Hnil.
  pose proof (@EditConfig_sends_neither_config_nor_url
                textRuntime Candidate (URL_any "")
                [WithTestStrategy "test-then-set"]) as Hurl.
  cbv zeta in Hnil, Hurl.
  destruct Hnil as [Hcall [_ [_ [_ Hnil]]]].
  destruct Hurl as [_ [_ [_ [_ Hurl]]]].
  split; [exact Hcall|]. split; [reflexivity|].
  destruct (proj1 Hnil (or_introl eq_refl)) as [H1 H2].
  destruct (proj1 Hurl (or_intror eq_refl)) as [H3 H4].
  repeat split; assumption.
Defined.

(** ** Filter options: a path that does not translate *)

Lemma WithFilter_error (xpath : string) (c : GetConfigReq) :
  snd (parseXPathToXML xpath) <> None -> WithFilter xpath c = c.
Proof.
  unfold WithFilter. destruct (parseXPathToXML xpath) as [subtree [err|]];
    simpl; [reflexivity | intros H; now elim H].
Qed.

(** C1, what the code does: when the translation of the path fails,
    [WithFilter] and [WithFilterOption] leave the request as it was, and
    [GetConfig] and [CreateSubscription] hand [Session.Call] the request
    without filter, the same as when no filter option is given.  No
    validation error is returned. *)
Theorem filter_error_is_swallowed `{Runtime} (xpath : string)
        (source : Datastore) :
  snd (parseXPathToXML xpath) <> None ->
  Session.getConfigReq source [WithFilter xpath] = mkGetConfigReq source ""
  /\ Session.GetConfig source [WithFilter xpath] = Session.GetConfig source []
  /\ Session.createSubscriptionReq [WithFilterOption xpath]
     = mkCreateSubscriptionReq "" "" "" ""
  /\ Session.CreateSubscription [WithFilterOption xpath]
     = Session.CreateSubscription []
  /\ forall (S : Type) (call : Request -> S -> Response * option error * S)
            (s : S),
      snd (fst (run call (Session.GetConfig source [WithFilter xpath]) s))
      = [GetConfigCall (mkGetConfigReq source "")]
      /\ snd (fst (run call (Session.CreateSubscription
                               [WithFilterOption xpath]) s))
         = [CreateSubscriptionCall (mkCreateSubscriptionReq "" "" "" "")].
Proof.
  intros Herr.
  assert (H1 : Session.getConfigReq source [WithFilter xpath]
               = mkGetConfigReq source "")
    by (unfold Session.getConfigReq; simpl; now apply WithFilter_error).
  assert (H2 : Session.createSubscriptionReq [WithFilterOption xpath]
               = mkCreateSubscriptionReq "" "" "" "").
  { unfold Session.createSubscriptionReq. simpl.
    destruct (parseXPathToXML xpath) as [subtree [err|]];
      simpl in *; [reflexivity | now elim Herr]. }
  split; [exact H1|]. split.
  { unfold Session.GetConfig. now rewrite H1. }
  split; [exact H2|]. split.
  { unfold Session.CreateSubscription. now rewrite H2. }
  intros S call s. unfold Session.GetConfig, Session.CreateSubscription.
  rewrite H1, H2. simpl.
  destruct (call (GetConfigCall _) s) as [[resp err] s'].
  destruct (call (CreateSubscriptionCall _) s) as [[resp2 err2] s2].
  destruct err; split; reflexivity.
Qed.

Lemma filter_error_is_swallowed_witness :
  @Session.GetConfig textRuntime Running [WithFilter "library/book"]
  = @Session.GetConfig textRuntime Running []
  /\ @Session.CreateSubscription textRuntime [WithFilterOption "library/book"]
     = @Session.CreateSubscription textRuntime [].
Proof.
  assert (H : snd (parseXPathToXML "library/book") <> None)
    by (simpl; discriminate).
  split.
  - exact (proj1 (proj2 (@filter_error_is_swallowed
                           textRuntime "library/book" Running H))).
  - exact (proj1 (proj2 (proj2 (proj2 (@filter_error_is_swallowed
                           textRuntime "library/book" Running H))))).
Defined.

(** ** The pattern of the path translator *)

Section PlusFacts.

Context {R : Type}.

(** A greedy repetition over a character class takes the whole run of
    characters of the class when what follows matches there. *)
Lemma plusGreedy_run (p : ascii -> bool) (name t : string) :
  forall (fuel : nat) (k : string -> option R) (x : R),
    name <> "" ->
    allBytes p name = true ->
    startsWith p t = false ->
    String.length name <= fuel ->
    k t = Some x ->
    regexp.plusGreedy fuel (regexp.Class p) (name ++ t) k = Some x.
Proof.
  induction name as [|c name IH]; intros fuel k x Hne Hall Ht Hfuel Hk.
  - now elim Hne.
  - cbn [allBytes] in Hall. apply andb_prop in Hall. destruct Hall as [Hc Hall].
    destruct fuel as [|fuel]; [simpl in Hfuel; lia|].
    cbn [append regexp.plusGreedy regexp.matchAtom]. rewrite Hc.
    destruct name as [|d name].
    + cbn [append].
      assert (Hnone : regexp.plusGreedy fuel (regexp.Class p) t k = None).
      { destruct fuel; [reflexivity|].
        cbn [regexp.plusGreedy regexp.matchAtom].
        destruct t as [|e t]; [reflexivity|].
        simpl in Ht. now rewrite Ht. }
      now rewrite Hnone.
    + rewrite (IH fuel k x); [reflexivity | discriminate | exact Hall
                              | exact Ht | simpl in *; lia | exact Hk].
Qed.


(** A repetition fails when its first character does. *)
Lemma plusGreedy_first (a : regexp.atom) (s : string) (fuel : nat)
      (k : string -> option R) :
  regexp.matchAtom a s = None -> regexp.plusGreedy fuel a s k = None.
Proof.
  intros Hm. destruct fuel; [reflexivity|].
  cbn [regexp.plusGreedy]. now rewrite Hm.
Qed.


End PlusFacts.

Lemma allBytes_drop (p : ascii -> bool) (n : nat) (s : string) :
  allBytes p s = true -> allBytes p (drop n s) = true.
Proof.
  revert s. induction n as [|n IH]; intros [|c s] H; simpl; auto.
  simpl in H. apply andb_prop in H. now apply IH.
Qed.



(** No match of [xpathRe] starts at a byte other than the separator. *)
Lemma matchHere_not_slash (s : string) :
  startsWith (Ascii.eqb "/"%char) s = false ->
  regexp.matchHere xpathRe s = None.
Proof.
  intros Hs. unfold regexp.matchHere. cbn [xpathRe regexp.exec].
  destruct s as [|c s]; [reflexivity|].
  cbn [regexp.matchAtom]. cbn [startsWith] in Hs.
  rewrite Ascii.eqb_sym in Hs. now rewrite Hs.
Qed.

(** No match starts at a separator that no name character follows. *)
Lemma matchHere_no_name (s : string) :
  startsWith isWordOrDash s = false ->
  regexp.matchHere xpathRe (String "/" s) = None.
Proof.
  intros Hs. unfold regexp.matchHere. cbn [xpathRe regexp.exec].
  cbn [regexp.matchAtom]. rewrite Ascii.eqb_refl.
  apply plusGreedy_first. destruct s as [|c s]; [reflexivity|].
  cbn [regexp.matchAtom]. cbn [startsWith] in Hs. now rewrite Hs.
Qed.






(** [xpathRe] at a separator: the name, then the predicate if there is
    one. *)
Lemma exec_xpathRe_slash {R : Type} (fuel : nat) (s1 : string)
      (c : regexp.Caps) (k : string -> regexp.Caps -> option R) :
  regexp.exec fuel xpathRe (String "/" s1) c k
  = regexp.plusGreedy fuel (regexp.Class isWordOrDash) s1
      (fun s' =>
         let c' := regexp.setCap
                     1 (take (String.length s1 - String.length s') s1) c in
         match regexp.exec fuel predicateRe s' c' k with
         | Some x => Some x
         | None => k s' c'
         end).
Proof. reflexivity. Qed.

Lemma hasSegment_no_slash (t : string) :
  allBytes notSlash t = true -> hasSegment t = false.
Proof.
  induction t as [|c t IH]; [reflexivity|].
  cbn [allBytes hasSegment]. intros H. apply andb_prop in H.
  destruct H as [Hc Ht]. unfold notSlash in Hc. apply negb_true_iff in Hc.
  rewrite Hc. cbn [andb orb]. now apply IH.
Qed.


(** ** Presence booleans *)

(** The line feeds of two sequences of tokens. *)
Lemma lineFeeds_app (ts us : list xml.Token) :
  xml.lineFeeds (ts ++ us) = xml.lineFeeds ts + xml.lineFeeds us.
Proof.
  induction ts as [|t ts IH]; [reflexivity|].
  destruct t; cbn [app xml.lineFeeds]; rewrite IH; lia.
Qed.

(** [d.Skip()] passes over well-formed content. *)
Lemma skipLoop_content (c : xml.Content) :
  forall (depth : nat) (rest : list xml.Token) (st : list string) (ln : nat),
    xml.skipLoop depth (xml.tokensOf c ++ rest)%list st ln
    = xml.skipLoop depth rest st (ln + xml.lineFeeds (xml.tokensOf c)).
Proof.
  induction c as [|n children IHc siblings IHs|data siblings IHs];
    intros depth rest st ln.
  - cbn [xml.tokensOf app xml.lineFeeds]. now rewrite Nat.add_0_r.
  - cbn [xml.tokensOf app xml.skipLoop xml.NextToken xml.toks xml.stk
         xml.line xml.lineFeeds].
    rewrite <- app_assoc. rewrite IHc.
    cbn [app xml.skipLoop xml.NextToken xml.toks xml.stk xml.line].
    rewrite String.eqb_refl. cbn [xml.stk xml.line]. rewrite IHs.
    rewrite lineFeeds_app. cbn [xml.lineFeeds]. now rewrite Nat.add_assoc.
  - cbn [xml.tokensOf app xml.skipLoop xml.NextToken xml.toks xml.stk
         xml.line xml.lineFeeds].
    rewrite IHs. now rewrite Nat.add_assoc.
Qed.

(** After the start of an element, [d.Skip()] consumes the element. *)
Lemma Skip_element (n : string) (c : xml.Content) (rest : list xml.Token)
      (st : list string) (ln : nat) :
  xml.Skip (xml.mkDecoder (xml.tokensOf c ++ xml.TEndElement n :: rest)%list
                          (n :: st) ln)
  = (None, xml.mkDecoder rest st (ln + xml.lineFeeds (xml.tokensOf c))).
Proof.
  unfold xml.Skip. cbn [xml.toks xml.stk xml.line]. rewrite skipLoop_content.
  cbn [xml.skipLoop xml.NextToken xml.toks xml.stk xml.line].
  now rewrite String.eqb_refl.
Qed.

Lemma ExtantBool_UnmarshalXML_present (b : ExtantBool) (n : string)
      (c : xml.Content) (rest : list xml.Token) (st : list string) (ln : nat) :
  ExtantBool.UnmarshalXML
    b (xml.mkDecoder (xml.tokensOf c ++ xml.TEndElement n :: rest)%list
                     (n :: st) ln)
    (xml.mkStart n)
  = (true, None,
     xml.mkDecoder rest st (ln + xml.lineFeeds (xml.tokensOf c))).
Proof.
  unfold ExtantBool.UnmarshalXML, xml.DecodeElement.
  now rewrite Skip_element.
Qed.

(** Decoding a struct with a presence boolean tagged [name]: the field
    becomes true when a child named [name] is read. *)
Lemma unmarshalLoop_ExtantBool (name : string) (c : xml.Content) :
  forall (fuel : nat) (v : ExtantBool) (parent : string)
         (rest : list xml.Token) (st : list string) (ln : nat),
    List.length (xml.tokensOf c) < fuel ->
    xml.unmarshalLoop
      ExtantBool.UnmarshalXML name fuel v
      (xml.mkDecoder (xml.tokensOf c ++ xml.TEndElement parent :: rest)%list
                     (parent :: st) ln)
    = (v || xml.hasElement name c, None,
       xml.mkDecoder rest st (ln + xml.lineFeeds (xml.tokensOf c))).
Proof.
  induction c as [|n children _ siblings IHs|data siblings IHs];
    intros fuel v parent rest st ln Hfuel;
    (destruct fuel as [|fuel]; [inversion Hfuel|]).
  - cbn [xml.tokensOf app xml.unmarshalLoop xml.NextToken xml.toks xml.stk
         xml.line xml.hasElement xml.lineFeeds].
    now rewrite String.eqb_refl, orb_false_r, Nat.add_0_r.
  - cbn [xml.tokensOf List.length] in Hfuel. rewrite length_app in Hfuel.
    cbn [List.length] in Hfuel.
    cbn [xml.tokensOf app xml.unmarshalLoop xml.NextToken xml.toks xml.stk
         xml.line xml.hasElement xml.lineFeeds].
    rewrite <- app_assoc. cbn [app].
    rewrite lineFeeds_app. cbn [xml.lineFeeds]. rewrite Nat.add_assoc.
    destruct (String.eqb n name) eqn:Hn.
    + rewrite ExtantBool_UnmarshalXML_present.
      rewrite IHs by lia. now rewrite orb_true_r.
    + rewrite Skip_element. rewrite IHs by lia. reflexivity.
  - cbn [xml.tokensOf List.length] in Hfuel.
    cbn [xml.tokensOf app xml.unmarshalLoop xml.NextToken xml.toks xml.stk
         xml.line xml.hasElement xml.lineFeeds].
    rewrite Nat.add_assoc. apply IHs. lia.
Qed.

Lemma unmarshalStruct_ExtantBool (name : string) (c : xml.Content)
      (parent : string) (rest : list xml.Token) (st : list string) (ln : nat) :
  xml.unmarshalStruct
    ExtantBool.UnmarshalXML name false
    (xml.mkDecoder (xml.tokensOf c ++ xml.TEndElement parent :: rest)%list
                   (parent :: st) ln)
  = (xml.hasElement name c, None,
     xml.mkDecoder rest st (ln + xml.lineFeeds (xml.tokensOf c))).
Proof.
  unfold xml.unmarshalStruct. cbn [xml.toks].
  rewrite unmarshalLoop_ExtantBool; [reflexivity|].
  rewrite length_app. cbn [List.length]. lia.
Qed.

(** *** The tokens of an empty element *)

Lemma span_name (p : ascii -> bool) (n : string) (c : ascii) (r : string) :
  allBytes p n = true -> p c = false ->
  xml.span p (n ++ String c r) = (n, String c r).
Proof.
  intros Hn Hc. induction n as [|a n IH]; cbn [append xml.span].
  - now rewrite Hc.
  - cbn [allBytes] in Hn. apply andb_prop in Hn. destruct Hn as [Ha Hn].
    rewrite Ha. now rewrite (IH Hn).
Qed.

Lemma isLetter_not_slash (c : ascii) :
  xml.isLetter c = true -> Ascii.eqb c "/" = false.
Proof.
  intros Hc. destruct (Ascii.eqb_spec c "/") as [->|]; [|reflexivity].
  discriminate Hc.
Qed.

Lemma Tokens_empty_element (n : string) :
  validName n = true ->
  xml.Tokens ("<" ++ n ++ "></" ++ n ++ ">")
  = Some [xml.TStartElement n; xml.TEndElement n].
Proof.
  unfold validName. intros H. apply andb_prop in H. destruct H as [Hname Hbytes].
  destruct n as [|c n]; [discriminate|].
  cbn [xml.isName] in Hname.
  unfold xml.Tokens.
  set (s2 := "</" ++ String c n ++ ">").
  change ("<" ++ String c n ++ "></" ++ String c n ++ ">")
    with (String "<" (String c (n ++ String ">" s2))).
  cbn [String.length xml.tokenize].
  rewrite Ascii.eqb_refl. rewrite (isLetter_not_slash c Hname).
  change (String c (n ++ String ">" s2)) with (String c n ++ String ">" s2).
  rewrite (span_name xml.isNameByte (String c n) ">" s2 Hbytes eq_refl).
  cbn [xml.isName]. rewrite Hname. rewrite Ascii.eqb_refl. cbn [andb].
  subst s2.
  change ("</" ++ String c n ++ ">")
    with (String "<" (String "/" (String c n ++ String ">" ""))).
  rewrite length_append. cbn [String.length Nat.add].
  rewrite Nat.add_succ_r. cbn [xml.tokenize].
  rewrite !Ascii.eqb_refl.
  rewrite (span_name xml.isNameByte (String c n) ">" "" Hbytes eq_refl).
  cbn [xml.isName]. rewrite Hname. rewrite Ascii.eqb_refl. cbn [andb].
  reflexivity.
Qed.

Lemma ExtantBool_MarshalXML_true (e : xml.Encoder) (start : xml.StartElement) :
  xml.Local start <> "" ->
  ExtantBool.MarshalXML true e start
  = (e ++ "<" ++ xml.Local start ++ "></" ++ xml.Local start ++ ">", None).
Proof.
  intros Hstart. unfold ExtantBool.MarshalXML, xml.EncodeElement.
  apply String.eqb_neq in Hstart. cbn [negb]. rewrite Hstart.
  unfold xml.writeEnd, xml.writeStart. f_equal.
  now rewrite !append_assoc.
Qed.

(** C3: an [ExtantBool] that is true is encoded as the element [start]
    with nothing in it, one that is false as nothing at all.  Decoding an
    element into an [ExtantBool] gives true whatever the element holds
    and whatever the value was; in a struct with an [ExtantBool] field
    tagged [name], the field, false at first, is true after decoding
    exactly when a child named [name] is among the children read.  So the
    tokens of the encoding decode to the boolean that was encoded. *)
Theorem ExtantBool_roundtrip :
  (forall e start,
      xml.Local start <> "" ->
      ExtantBool.MarshalXML true e start
      = (e ++ "<" ++ xml.Local start ++ "></" ++ xml.Local start ++ ">", None))
  /\ (forall e start, ExtantBool.MarshalXML false e start = (e, None))
  /\ (forall b n content rest st ln,
         ExtantBool.UnmarshalXML
           b (xml.mkDecoder
                (xml.tokensOf content ++ xml.TEndElement n :: rest)%list
                (n :: st) ln)
           (xml.mkStart n)
         = (true, None,
            xml.mkDecoder rest st
                          (ln + xml.lineFeeds (xml.tokensOf content))))
  /\ (forall name content parent rest st ln,
         xml.unmarshalStruct
           ExtantBool.UnmarshalXML name false
           (xml.mkDecoder
              (xml.tokensOf content ++ xml.TEndElement parent :: rest)%list
              (parent :: st) ln)
         = (xml.hasElement name content, None,
            xml.mkDecoder rest st
                          (ln + xml.lineFeeds (xml.tokensOf content))))
  /\ (forall (b : ExtantBool) name parent ln,
         validName name = true ->
         exists ts,
           snd (ExtantBool.MarshalXML b "" (xml.mkStart name)) = None
           /\ xml.Tokens (fst (ExtantBool.MarshalXML b "" (xml.mkStart name)))
              = Some ts
           /\ xml.unmarshalStruct
                ExtantBool.UnmarshalXML name false
                (xml.mkDecoder (ts ++ [xml.TEndElement parent])%list
                               [parent] ln)
              = (b, None, xml.mkDecoder [] [] ln)).
Proof.
  split; [exact ExtantBool_MarshalXML_true|].
  split; [reflexivity|].
  split; [exact ExtantBool_UnmarshalXML_present|].
  split; [exact unmarshalStruct_ExtantBool|].
  intros b name parent ln Hname.
  assert (Hne : xml.Local (xml.mkStart name) <> "").
  { cbn [xml.Local]. intros ->. discriminate Hname. }
  destruct b.
  - exists [xml.TStartElement name; xml.TEndElement name].
    rewrite (ExtantBool_MarshalXML_true "" (xml.mkStart name) Hne).
    cbn [fst snd xml.Local]. split; [reflexivity|]. split.
    + exact (Tokens_empty_element name Hname).
    + pose proof (unmarshalStruct_ExtantBool
                    name (xml.Element name xml.NoContent xml.NoContent)
                    parent [] [] ln) as H.
      cbn [xml.tokensOf xml.hasElement xml.lineFeeds app] in H.
      rewrite String.eqb_refl, Nat.add_0_r in H. exact H.
  - exists []. cbn [ExtantBool.MarshalXML negb fst snd].
    split; [reflexivity|]. split; [reflexivity|].
    pose proof (unmarshalStruct_ExtantBool
                  name xml.NoContent parent [] [] ln) as H.
    cbn [xml.tokensOf xml.hasElement xml.lineFeeds app] in H.
    rewrite Nat.add_0_r in H. exact H.
Qed.

Lemma ExtantBool_roundtrip_witness :
  ExtantBool.MarshalXML true "" (xml.mkStart "confirmed")
  = ("<confirmed></confirmed>", None)
  /\ exists ts,
      snd (ExtantBool.MarshalXML true "" (xml.mkStart "ok")) = None
      /\ xml.Tokens (fst (ExtantBool.MarshalXML true "" (xml.mkStart "ok")))
         = Some ts
      /\ xml.unmarshalStruct
           ExtantBool.UnmarshalXML "ok" false
           (xml.mkDecoder (ts ++ [xml.TEndElement "rpc-reply"])%list
                          ["rpc-reply"] 1)
         = (true, None, xml.mkDecoder [] [] 1).
Proof.
  split.
  - refine (proj1 ExtantBool_roundtrip "" (xml.mkStart "confirmed") _).
    simpl; discriminate.
  - refine (proj2 (proj2 (proj2 (proj2 ExtantBool_roundtrip)))
                  true "ok" "rpc-reply" 1 _).
    vm_compute; reflexivity.
Defined.

(** ** The bounds of the matcher are never reached *)

(** A character takes a byte at least. *)
Lemma matchAtom_length (a : regexp.atom) (s s' : string) :
  regexp.matchAtom a s = Some s' -> String.length s' < String.length s.
Proof.
  destruct a as [c|p|]; cbn [regexp.matchAtom].
  - destruct s as [|b s]; [discriminate|].
    destruct (Ascii.eqb b c); [|discriminate].
    intros H; injection H as <-. simpl; lia.
  - destruct s as [|b s]; [discriminate|].
    destruct (p b); [|discriminate].
    intros H; injection H as <-. simpl; lia.
  - destruct s as [|b s]; [discriminate|].
    destruct (utf8.DecodeRune (String b s)) as [r width].
    destruct width as [|width]; [discriminate|].
    cbn [Nat.eqb]. destruct (Z.eqb r 10); [discriminate|].
    intros H; injection H as <-. rewrite length_drop. simpl; lia.
Qed.

Section Fuel.

Context {R : Type}.

Lemma plusGreedy_fuel (a : regexp.atom) :
  forall (f1 f2 : nat) (s : string) (k1 k2 : string -> option R),
    String.length s <= f1 -> String.length s <= f2 ->
    (forall u, String.length u < String.length s -> k1 u = k2 u) ->
    regexp.plusGreedy f1 a s k1 = regexp.plusGreedy f2 a s k2.
Proof.
  induction f1 as [|f1 IH]; intros f2 s k1 k2 H1 H2 Hk.
  - destruct s; [|simpl in H1; lia].
    destruct f2; [reflexivity|]. cbn [regexp.plusGreedy].
    destruct (regexp.matchAtom a "") as [s'|] eqn:Hm; [|reflexivity].
    apply matchAtom_length in Hm. simpl in Hm; lia.
  - cbn [regexp.plusGreedy].
    destruct (regexp.matchAtom a s) as [s'|] eqn:Hm.
    + pose proof (matchAtom_length _ _ _ Hm) as Hlt.
      destruct f2 as [|f2]; [lia|]. cbn [regexp.plusGreedy]. rewrite Hm.
      rewrite (IH f2 s' k1 k2) by (try lia; intros u Hu; apply Hk; lia).
      now rewrite (Hk s' Hlt).
    + destruct f2; [reflexivity|]. cbn [regexp.plusGreedy]. now rewrite Hm.
Qed.

Lemma plusLazy_fuel (a : regexp.atom) :
  forall (f1 f2 : nat) (s : string) (k1 k2 : string -> option R),
    String.length s <= f1 -> String.length s <= f2 ->
    (forall u, String.length u < String.length s -> k1 u = k2 u) ->
    regexp.plusLazy f1 a s k1 = regexp.plusLazy f2 a s k2.
Proof.
  induction f1 as [|f1 IH]; intros f2 s k1 k2 H1 H2 Hk.
  - destruct s; [|simpl in H1; lia].
    destruct f2; [reflexivity|]. cbn [regexp.plusLazy].
    destruct (regexp.matchAtom a "") as [s'|] eqn:Hm; [|reflexivity].
    apply matchAtom_length in Hm. simpl in Hm; lia.
  - cbn [regexp.plusLazy].
    destruct (regexp.matchAtom a s) as [s'|] eqn:Hm.
    + pose proof (matchAtom_length _ _ _ Hm) as Hlt.
      destruct f2 as [|f2]; [lia|]. cbn [regexp.plusLazy]. rewrite Hm.
      rewrite (Hk s' Hlt).
      now rewrite (IH f2 s' k1 k2) by (try lia; intros u Hu; apply Hk; lia).
    + destruct f2; [reflexivity|]. cbn [regexp.plusLazy]. now rewrite Hm.
Qed.

(** The result of the search does not depend on the bound, once it is
    the length of the input. *)
Lemma exec_fuel (r : regexp.regex) :
  forall (f1 f2 : nat) (s : string) (c : regexp.Caps)
         (k1 k2 : string -> regexp.Caps -> option R),
    String.length s <= f1 -> String.length s <= f2 ->
    (forall u c', String.length u <= String.length s -> k1 u c' = k2 u c') ->
    regexp.exec f1 r s c k1 = regexp.exec f2 r s c k2.
Proof.
  induction r as [a|r1 IH1 r2 IH2|i r1 IH1|r1 IH1|a|a];
    intros f1 f2 s c k1 k2 H1 H2 Hk; cbn [regexp.exec].
  - destruct (regexp.matchAtom a s) as [s'|] eqn:Hm; [|reflexivity].
    apply matchAtom_length in Hm. apply Hk. lia.
  - apply IH1; try assumption. intros u c' Hu.
    apply IH2; try lia. intros v c'' Hv. apply Hk. lia.
  - apply IH1; try assumption. intros u c' Hu. now apply Hk.
  - rewrite (IH1 f1 f2 s c k1 k2 H1 H2 Hk).
    now rewrite (Hk s c (Nat.le_refl _)).
  - apply plusGreedy_fuel; try assumption. intros u Hu. apply Hk. lia.
  - apply plusLazy_fuel; try assumption. intros u Hu. apply Hk. lia.
Qed.

(** A repetition hands to what follows a shorter input. *)
Lemma plusGreedy_result (a : regexp.atom) :
  forall (fuel : nat) (s : string) (k : string -> option R) (x : R),
    regexp.plusGreedy fuel a s k = Some x ->
    exists u, String.length u < String.length s /\ k u = Some x.
Proof.
  induction fuel as [|fuel IH]; intros s k x; cbn [regexp.plusGreedy];
    [discriminate|].
  destruct (regexp.matchAtom a s) as [s'|] eqn:Hm; [|discriminate].
  apply matchAtom_length in Hm.
  destruct (regexp.plusGreedy fuel a s' k) as [y|] eqn:Hp.
  - intros H; injection H as <-. destruct (IH _ _ _ Hp) as [u [Hu Hk]].
    exists u. split; [lia | exact Hk].
  - intros H. exists s'. split; [exact Hm | exact H].
Qed.

Lemma plusLazy_result (a : regexp.atom) :
  forall (fuel : nat) (s : string) (k : string -> option R) (x : R),
    regexp.plusLazy fuel a s k = Some x ->
    exists u, String.length u < String.length s /\ k u = Some x.
Proof.
  induction fuel as [|fuel IH]; intros s k x; cbn [regexp.plusLazy];
    [discriminate|].
  destruct (regexp.matchAtom a s) as [s'|] eqn:Hm; [|discriminate].
  apply matchAtom_length in Hm.
  destruct (k s') as [y|] eqn:Hk.
  - intros H; injection H as <-. exists s'. split; [exact Hm | exact Hk].
  - intros H. destruct (IH _ _ _ H) as [u [Hu Hku]].
    exists u. split; [lia | exact Hku].
Qed.

(** A successful search ends in the continuation, on an input that is not
    longer. *)
Lemma exec_result (r : regexp.regex) :
  forall (fuel : nat) (s : string) (c : regexp.Caps)
         (k : string -> regexp.Caps -> option R) (x : R),
    regexp.exec fuel r s c k = Some x ->
    exists u c', String.length u <= String.length s /\ k u c' = Some x.
Proof.
  induction r as [a|r1 IH1 r2 IH2|i r1 IH1|r1 IH1|a|a];
    intros fuel s c k x; cbn [regexp.exec].
  - destruct (regexp.matchAtom a s) as [s'|] eqn:Hm; [|discriminate].
    apply matchAtom_length in Hm. intros H. exists s', c. split; [lia | exact H].
  - intros H. destruct (IH1 _ _ _ _ _ H) as [u [c' [Hu H']]].
    destruct (IH2 _ _ _ _ _ H') as [v [c'' [Hv H'']]].
    exists v, c''. split; [lia | exact H''].
  - intros H. destruct (IH1 _ _ _ _ _ H) as [u [c' [Hu H']]]. eauto.
  - destruct (regexp.exec fuel r1 s c k) as [y|] eqn:He.
    + intros H; injection H as <-. exact (IH1 _ _ _ _ _ He).
    + intros H. exists s, c. split; [lia | exact H].
  - intros H. destruct (plusGreedy_result _ _ _ _ _ H) as [u [Hu H']].
    exists u, c. split; [lia | exact H'].
  - intros H. destruct (plusLazy_result _ _ _ _ _ H) as [u [Hu H']].
    exists u, c. split; [lia | exact H'].
Qed.

End Fuel.

Lemma matchHere_rest (re : regexp.regex) (s : string) (m : regexp.Submatch)
      (rest : string) :
  regexp.matchHere re s = Some (m, rest) ->
  String.length rest <= String.length s.
Proof.
  unfold regexp.matchHere. intros H.
  destruct (exec_result _ _ _ _ _ _ H) as [u [c' [Hu Hk]]].
  injection Hk as _ <-. exact Hu.
Qed.

Lemma search_rest (re : regexp.regex) (s : string) :
  forall (n : nat) (m : regexp.Submatch) (rest : string),
    regexp.search re s = Some (n, m, rest) ->
    n + String.length rest <= String.length s.
Proof.
  induction s as [|c s IH]; intros n m rest; cbn [regexp.search].
  - destruct (regexp.matchHere re "") as [[m' rest']|] eqn:Hm; [|discriminate].
    intros H; injection H as <- _ <-. apply matchHere_rest in Hm. simpl in *; lia.
  - destruct (regexp.matchHere re (String c s)) as [[m' rest']|] eqn:Hm.
    + intros H; injection H as <- _ <-. apply matchHere_rest in Hm.
      simpl in *; lia.
    + destruct (regexp.search re s) as [[[n' m'] rest']|] eqn:Hs; [|discriminate].
      intros H; injection H as <- _ <-.
      specialize (IH _ _ _ eq_refl). simpl; lia.
Qed.

(** The loop over the matches ends before its bound: a larger bound gives
    the same matches. *)
Lemma allMatches_fuel (re : regexp.regex) :
  forall (f1 f2 : nat) (s : string) (afterMatch : bool),
    String.length s < f1 -> String.length s < f2 ->
    regexp.allMatches f1 re s afterMatch = regexp.allMatches f2 re s afterMatch.
Proof.
  induction f1 as [|f1 IH]; intros f2 s afterMatch H1 H2; [lia|].
  destruct f2 as [|f2]; [lia|]. cbn [regexp.allMatches].
  destruct (regexp.search re s) as [[[n m] rest]|] eqn:Hs; [|reflexivity].
  apply search_rest in Hs.
  destruct (Nat.eqb n 0 && Nat.eqb (String.length rest) (String.length s))
           eqn:Hc.
  - destruct s as [|b s]; [reflexivity|].
    destruct (utf8.DecodeRune (String b s)) as [r width]. cbn [snd].
    destruct width as [|width]; [reflexivity|]. cbn [Nat.eqb].
    rewrite (IH f2) by (rewrite length_drop; simpl in *; lia).
    reflexivity.
  - f_equal. apply IH.
    + apply andb_false_iff in Hc. destruct Hc as [Hc|Hc];
        apply Nat.eqb_neq in Hc; lia.
    + apply andb_false_iff in Hc. destruct Hc as [Hc|Hc];
        apply Nat.eqb_neq in Hc; lia.
Qed.

(** [FindAllStringSubmatch] with any larger bounds. *)
Lemma FindAllStringSubmatch_fuel (re : regexp.regex) (s : string) (fuel : nat) :
  String.length s < fuel ->
  regexp.allMatches fuel re s false = regexp.FindAllStringSubmatch re s.
Proof.
  intros H. unfold regexp.FindAllStringSubmatch.
  apply allMatches_fuel; lia.
Qed.

Lemma matchHere_fuel (re : regexp.regex) (s : string) (fuel : nat) :
  String.length s <= fuel ->
  regexp.exec fuel re s regexp.noCaps
              (fun s' c' =>
                 Some (take (String.length s - String.length s') s
                         :: map c' (seq 1 (regexp.NumSubexp re)), s'))
  = regexp.matchHere re s.
Proof.
  intros H. unfold regexp.matchHere. apply exec_fuel; auto.
Qed.

(** ** The models of the library on sample inputs *)

(** The bytes [c3 a9] are one rune, U+00E9; a lone [c3] is invalid. *)
Example DecodeRune_samples :
  utf8.DecodeRune (String (ascii_of_nat 195) (String (ascii_of_nat 169) "x"))
  = (233%Z, 2)
  /\ utf8.DecodeRune (String (ascii_of_nat 195) "x") = (utf8.RuneError, 1)
  /\ utf8.DecodeRune "x" = (120%Z, 1)
  /\ utf8.DecodeRune "" = (utf8.RuneError, 0).
Proof. repeat split. Qed.

Example EscapeText_samples :
  xml.EscapeText "a<b>&'c" = ("a&lt;b&gt;&amp;&#39;c", None)
  /\ xml.EscapeText (String (ascii_of_nat 195) (String (ascii_of_nat 169) ""))
     = (String (ascii_of_nat 195) (String (ascii_of_nat 169) ""), None)
  /\ xml.EscapeText (String (ascii_of_nat 195) "x")
     = (xml.escFFFD ++ "x", None).
Proof. repeat split. Qed.

(** The lazy repetitions of the predicate give way until the closing quote
    and bracket are found; a segment takes one predicate. *)
Example parseXPathToXML_samples :
  parseXPathToXML "/a/b-c/d_1" = ("<a><b-c><d_1></d_1></b-c></a>", None)
  /\ parseXPathToXML "/a[b='c']/d[e='f g']"
     = ("<a><b>c</b><d><e>f g</e></d></a>", None)
  /\ parseXPathToXML "/a[b='']/c='d']" = ("<a><b>&#39;]/c=&#39;d</b></a>", None)
  /\ parseXPathToXML "/a[b='x<y']" = ("<a><b>x&lt;y</b></a>", None)
  /\ parseXPathToXML "//a" = ("<a></a>", None)
  /\ parseXPathToXML "/" = ("", Some (Errorf "invalid XPath format"))
  /\ parseXPathToXML "" = ("", Some (errorString "invalid XPath format: must start with '/'")).
Proof. vm_compute. repeat split. Qed.

(** The decoder on input that is not well formed: the syntax error names
    the line that was reached. *)
Example Decoder_samples :
  xml.Skip (xml.mkDecoder
              [xml.TCharData ("a" ++ String (ascii_of_nat 10) "b")] ["ok"] 1)
  = (Some (errorString "XML syntax error on line 2: unexpected EOF"),
     xml.mkDecoder [] ["ok"] 2)
  /\ fst (xml.NextToken (xml.mkDecoder [xml.TEndElement "a"] [] 12))
     = inr (errorString
              "XML syntax error on line 12: unexpected end element </a>")
  /\ fst (xml.NextToken (xml.mkDecoder [] [] 1)) = inr (errorString "EOF")
  /\ xml.EncodeElement xml.emptyStruct (xml.mkStart "") "<rpc>"
     = ("<rpc>",
        Some (errorString
                "xml: EncodeElement of StartElement with missing name")).
Proof. repeat split. Qed.

(** * Further properties of the operation library *)

(** ** Runes *)

Lemma lor_lower (a b : Z) : (0 <= a -> 0 <= b -> a <= Z.lor a b)%Z.
Proof.
  intros Ha Hb.
  assert (E : Z.lor a b = Z.lor a (Z.ldiff b a)).
  { apply Z.bits_inj'. intros n Hn.
    rewrite !Z.lor_spec, Z.ldiff_spec.
    destruct (Z.testbit a n), (Z.testbit b n); reflexivity. }
  assert (D : Z.land a (Z.ldiff b a) = 0%Z).
  { apply Z.bits_inj'. intros n Hn.
    rewrite Z.land_spec, Z.ldiff_spec, Z.bits_0.
    destruct (Z.testbit a n), (Z.testbit b n); reflexivity. }
  rewrite E, <- (Z.lxor_lor _ _ D), <- (Z.add_nocarry_lxor _ _ D).
  assert (0 <= Z.ldiff b a)%Z by (apply Z.ldiff_nonneg; lia). lia.
Qed.

Lemma byteZ_range (c : ascii) : (0 <= byteZ c < 256)%Z.
Proof. unfold byteZ. pose proof (nat_ascii_bounded c). lia. Qed.

Lemma byteZ_high (c : ascii) : (128 <= byteZ c)%Z -> isHigh c = true.
Proof. unfold byteZ, isHigh. intros H. apply Nat.leb_le. lia. Qed.

Lemma lor_lower_r (a b : Z) : (0 <= a -> 0 <= b -> b <= Z.lor a b)%Z.
Proof. intros Ha Hb. rewrite Z.lor_comm. now apply lor_lower. Qed.

(** [(p & (2^n - 1)) << k] as arithmetic. *)
Lemma mask_shift (p n k : Z) :
  (0 <= n -> 0 <= k ->
   Z.shiftl (Z.land p (Z.ones n)) k = (p mod 2 ^ n) * 2 ^ k)%Z.
Proof.
  intros Hn Hk. rewrite Z.land_ones by exact Hn.
  now rewrite Z.shiftl_mul_pow2 by exact Hk.
Qed.

Lemma mask_nonneg (p n : Z) : (0 <= n -> 0 <= Z.land p (Z.ones n))%Z.
Proof.
  intros Hn. rewrite Z.land_ones by exact Hn.
  apply Z.mod_pos_bound. now apply Z.pow_pos_nonneg.
Qed.

Ltac rune_bound :=
  change utf8.maskx with (Z.ones 6); change utf8.mask2 with (Z.ones 5);
  change utf8.mask3 with (Z.ones 4); change utf8.mask4 with (Z.ones 3);
  repeat match goal with
         | |- context [Z.shiftl (Z.land ?p (Z.ones ?n)) ?k] =>
           let H := fresh "Hm" in
           let x := fresh "x" in
           pose proof (mask_shift p n k ltac:(lia) ltac:(lia)) as H;
           pose proof (Z.mod_pos_bound p (2 ^ n) ltac:(reflexivity));
           set (x := Z.shiftl (Z.land p (Z.ones n)) k) in *
         | |- context [Z.land ?p (Z.ones ?n)] =>
           let x := fresh "y" in
           pose proof (mask_nonneg p n ltac:(lia));
           set (x := Z.land p (Z.ones n)) in *
         end.

Ltac rune_error :=
  cbn [orb]; let H := fresh in
  intros H; injection H as <- <-; left; split; [reflexivity | now left].

Ltac eval_const t := let v := eval vm_compute in t in change t with v.

Ltac lead x :=
  eval_const (Z.to_nat (Z.land x 7));
  eval_const (utf8.acceptRanges (Z.shiftr x 4));
  eval_const utf8.locb; eval_const utf8.hicb;
  cbn [fst snd String.length Nat.ltb Nat.leb];
  try match goal with
      | |- context [if (?a <=? ?b)%nat then _ else _] =>
        destruct (Nat.leb_spec a b); [rune_error|]
      end.

Ltac next_byte s c1 b1 Hh1 :=
  destruct s as [|c1 s]; [cbn [String.length Nat.ltb Nat.leb]; rune_error|];
  pose proof (byteZ_range c1); pose proof (byteZ_high c1) as Hh1;
  set (b1 := byteZ c1) in *;
  cbn [String.length Nat.ltb Nat.leb];
  match goal with
  | |- context [(b1 <? ?lo)%Z || (?hi <? b1)%Z] =>
    destruct (Z.ltb_spec b1 lo); [rune_error|];
    destruct (Z.ltb_spec hi b1); [rune_error|]
  end; cbn [orb].

Ltac norm_pows :=
  repeat match goal with
         | H : context [(2 ^ ?n)%Z] |- _ =>
           let v := eval vm_compute in (2 ^ n)%Z in
           change (2 ^ n)%Z with v in H
         end.

Ltac lor_facts :=
  repeat match goal with
         | |- context [Z.lor ?a ?b] =>
           lazymatch a with context [Z.lor _ _] => fail | _ => idtac end;
           let z := fresh "z" in
           pose proof (lor_lower a b ltac:(lia) ltac:(lia));
           pose proof (lor_lower_r a b ltac:(lia) ltac:(lia));
           set (z := Z.lor a b) in *
         end.

Ltac rune_ok Hhigh :=
  let E := fresh in
  intros E; injection E as <- <-; right;
  split; [lia|]; split; [simpl; lia|]; split;
  [ cbn [take allBytes];
    repeat match goal with
           | H : (128 <= byteZ ?c)%Z -> isHigh ?c = true |- _ =>
             rewrite H by lia; clear H
           | H : (128 <= ?b)%Z -> isHigh ?c = true |- _ =>
             rewrite H by lia; clear H
           end; reflexivity
  | rune_bound; norm_pows; lor_facts;
    Z.to_euclidean_division_equations; lia ].

Opaque Z.shiftl Z.land Z.lor.

Lemma DecodeRune_cases (c : ascii) (s : string) :
  forall r w, utf8.DecodeRune (String c s) = (r, w) ->
  (w = 1 /\ (r = utf8.RuneError \/ (r = byteZ c /\ (byteZ c < 128)%Z)))
  \/ (2 <= w /\ w <= S (String.length s)
      /\ allBytes isHigh (take w (String c s)) = true /\ (128 <= r)%Z).
Proof.
  intros r w. pose proof (byteZ_range c) as Hc.
  pose proof (byteZ_high c) as Hhigh.
  unfold utf8.DecodeRune, utf8.first.
  set (p0 := byteZ c) in *.
  destruct (Z.ltb_spec p0 0x80) as [H1|H1].
  { cbn. intros H; injection H as <- <-. left. split; [reflexivity|].
    right. split; [reflexivity|lia]. }
  destruct (Z.ltb_spec p0 0xC2) as [H2|H2].
  { cbn. intros H; injection H as <- <-. left. split; [reflexivity|]. now left. }
  destruct (Z.ltb_spec p0 0xE0) as [H3|H3].
  { cbv iota. eval_const (utf8.as_ <=? utf8.s1)%Z. cbv iota. lead utf8.s1.
    next_byte s c1 b1 Hh1. rune_ok Hhigh. }
  destruct (Z.eqb_spec p0 0xE0) as [H4|H4].
  { cbv iota. eval_const (utf8.as_ <=? utf8.s2)%Z. cbv iota. lead utf8.s2.
    next_byte s c1 b1 Hh1. next_byte s c2 b2 Hh2. rune_ok Hhigh. }
  destruct (Z.ltb_spec p0 0xED) as [H5|H5].
  { cbv iota. eval_const (utf8.as_ <=? utf8.s3)%Z. cbv iota. lead utf8.s3.
    next_byte s c1 b1 Hh1. next_byte s c2 b2 Hh2. rune_ok Hhigh. }
  destruct (Z.eqb_spec p0 0xED) as [H6|H6].
  { cbv iota. eval_const (utf8.as_ <=? utf8.s4)%Z. cbv iota. lead utf8.s4.
    next_byte s c1 b1 Hh1. next_byte s c2 b2 Hh2. rune_ok Hhigh. }
  destruct (Z.ltb_spec p0 0xF0) as [H7|H7].
  { cbv iota. eval_const (utf8.as_ <=? utf8.s3)%Z. cbv iota. lead utf8.s3.
    next_byte s c1 b1 Hh1. next_byte s c2 b2 Hh2. rune_ok Hhigh. }
  destruct (Z.eqb_spec p0 0xF0) as [H8|H8].
  { cbv iota. eval_const (utf8.as_ <=? utf8.s5)%Z. cbv iota. lead utf8.s5.
    next_byte s c1 b1 Hh1. next_byte s c2 b2 Hh2. next_byte s c3 b3 Hh3.
    rune_ok Hhigh. }
  destruct (Z.ltb_spec p0 0xF4) as [H9|H9].
  { cbv iota. eval_const (utf8.as_ <=? utf8.s6)%Z. cbv iota. lead utf8.s6.
    next_byte s c1 b1 Hh1. next_byte s c2 b2 Hh2. next_byte s c3 b3 Hh3.
    rune_ok Hhigh. }
  destruct (Z.eqb_spec p0 0xF4) as [H10|H10].
  { cbv iota. eval_const (utf8.as_ <=? utf8.s7)%Z. cbv iota. lead utf8.s7.
    next_byte s c1 b1 Hh1. next_byte s c2 b2 Hh2. next_byte s c3 b3 Hh3.
    rune_ok Hhigh. }
  cbn. intros H; injection H as <- <-. left. split; [reflexivity|]. now left.
Qed.

Transparent Z.shiftl Z.land Z.lor.

Lemma allBytes_append (p : ascii -> bool) (a b : string) :
  allBytes p (a ++ b) = allBytes p a && allBytes p b.
Proof.
  induction a as [|c a IH]; cbn [append allBytes]; [reflexivity|].
  now rewrite IH, andb_assoc.
Qed.

Lemma allBytes_take (p : ascii -> bool) (n : nat) (s : string) :
  allBytes p s = true -> allBytes p (take n s) = true.
Proof.
  revert s. induction n as [|n IH]; intros [|c s] H; cbn [take allBytes]; auto.
  cbn [allBytes] in H. apply andb_prop in H. destruct H as [Hc Hs].
  now rewrite Hc, IH.
Qed.

Lemma allBytes_impl (p q : ascii -> bool) (s : string) :
  (forall c, p c = true -> q c = true) ->
  allBytes p s = true -> allBytes q s = true.
Proof.
  intros Hpq. induction s as [|c s IH]; cbn [allBytes]; [reflexivity|].
  intros H. apply andb_prop in H. destruct H as [Hc Hs].
  now rewrite (Hpq c Hc), IH.
Qed.

Lemma isHigh_notMarkup (c : ascii) : isHigh c = true -> notMarkup c = true.
Proof.
  unfold isHigh, notMarkup. intros H.
  destruct (Ascii.eqb_spec c "<") as [->|]; [discriminate H|].
  destruct (Ascii.eqb_spec c ">") as [->|]; [discriminate H|].
  destruct (Ascii.eqb_spec c dquote) as [->|]; [discriminate H|].
  destruct (Ascii.eqb_spec c squote) as [->|]; [discriminate H|].
  reflexivity.
Qed.

Lemma escapeRune_markup (c : ascii) :
  xml.escapeRune (byteZ c) 1 = None -> notMarkup c = true.
Proof.
  unfold notMarkup.
  destruct (Ascii.eqb_spec c "<") as [->|]; [discriminate|].
  destruct (Ascii.eqb_spec c ">") as [->|]; [discriminate|].
  destruct (Ascii.eqb_spec c dquote) as [->|]; [discriminate|].
  destruct (Ascii.eqb_spec c squote) as [->|]; [discriminate|].
  reflexivity.
Qed.

Lemma escapeRune_safe (r : Z) (w : nat) (esc : string) :
  xml.escapeRune r w = Some esc ->
  allBytes notMarkup esc = true /\ esc <> "".
Proof.
  unfold xml.escapeRune.
  repeat match goal with
         | |- context [if ?b then _ else _] => destruct b
         end;
    intros H; try discriminate; injection H as <-; split;
      (reflexivity || discriminate).
Qed.

Lemma escapeText_safe (s : string) :
  forall skip, allBytes notMarkup (xml.escapeText skip s) = true.
Proof.
  induction s as [|c s IH]; intros skip; [reflexivity|].
  cbn [xml.escapeText]. destruct skip as [|k]; [|apply IH].
  destruct (utf8.DecodeRune (String c s)) as [r w] eqn:Hd.
  destruct (xml.escapeRune r w) as [esc|] eqn:He.
  - rewrite allBytes_append, IH.
    now rewrite (proj1 (escapeRune_safe _ _ _ He)).
  - rewrite allBytes_append, IH, andb_true_r.
    destruct (DecodeRune_cases c s r w Hd)
      as [[-> [->|[-> Hlt]]]|[H2 [Hle [Hhigh Hr]]]].
    + discriminate He.
    + cbn [take allBytes]. now rewrite (escapeRune_markup c He).
    + exact (allBytes_impl isHigh notMarkup _ isHigh_notMarkup Hhigh).
Qed.

Lemma escapeText_nonempty (s : string) :
  s <> "" -> xml.escapeText 0 s <> "".
Proof.
  destruct s as [|c s]; [intros H; now elim H|]. intros _.
  cbn [xml.escapeText].
  destruct (utf8.DecodeRune (String c s)) as [r w] eqn:Hd.
  destruct (xml.escapeRune r w) as [esc|] eqn:He.
  - destruct (escapeRune_safe _ _ _ He) as [_ Hne].
    destruct esc; [now elim Hne | discriminate].
  - destruct (DecodeRune_cases c s r w Hd) as [[-> _]|[H2 _]].
    + discriminate.
    + destruct w as [|w]; [lia|]. discriminate.
Qed.

Lemma byteZ_newline (c : ascii) : byteZ c = 10%Z -> c = newline.
Proof.
  unfold byteZ, newline. intros H.
  rewrite <- (ascii_nat_embedding c). f_equal. lia.
Qed.

Lemma drop_append (n : nat) (a b : string) :
  n <= String.length a -> drop n (a ++ b) = drop n a ++ b.
Proof.
  revert a. induction n as [|n IH]; intros a H; [reflexivity|].
  destruct a as [|c a]; [simpl in H; lia|].
  cbn [append drop]. apply IH. simpl in H; lia.
Qed.

(** A run of high bytes at the head of [a ++ b] that is longer than [a]
    reaches into [b]. *)
Lemma high_run_reaches (w : nat) (a b : string) :
  allBytes isHigh (take w (a ++ b)) = true ->
  String.length a < w -> w <= String.length (a ++ b) ->
  startsWith isHigh b = true.
Proof.
  revert w. induction a as [|c a IH]; intros w Hh Hlt Hle.
  - cbn [append] in *. destruct w as [|w]; [simpl in Hlt; lia|].
    destruct b as [|d b]; [simpl in Hle; lia|].
    cbn [take allBytes] in Hh. apply andb_prop in Hh. now destruct Hh.
  - destruct w as [|w]; [simpl in Hlt; lia|].
    cbn [append take allBytes] in Hh. apply andb_prop in Hh.
    apply (IH w); [tauto | simpl in Hlt; lia | simpl in Hle; lia].
Qed.

(** One step of [.] inside a run [pre] of bytes other than the newline,
    followed by an ASCII byte: a rune of [pre] is taken, whole. *)
Lemma matchAtom_any_run (c : ascii) (pre t : string) :
  allBytes notNewline (String c pre) = true ->
  startsWith isHigh t = false ->
  exists pre',
    regexp.matchAtom regexp.AnyNotNL (String c pre ++ t) = Some (pre' ++ t)
    /\ String.length pre' <= String.length pre
    /\ exists n, pre' = drop n pre.
Proof.
  intros Hnl Ht. cbn [append regexp.matchAtom].
  destruct (utf8.DecodeRune (String c (pre ++ t))) as [r w] eqn:Hd.
  cbn [allBytes] in Hnl. apply andb_prop in Hnl. destruct Hnl as [Hc Hpre].
  destruct (DecodeRune_cases c (pre ++ t) r w Hd)
    as [[-> Hr]|[H2 [Hle [Hhigh Hr]]]].
  - cbn [Nat.eqb].
    assert (Hne : (r =? 10)%Z = false).
    { apply Z.eqb_neq. destruct Hr as [->|[-> _]]; [discriminate|].
      intros E. apply byteZ_newline in E. subst c. discriminate Hc. }
    rewrite Hne. exists pre. split; [reflexivity|]. split; [lia|].
    now exists 0.
  - destruct w as [|w]; [lia|]. cbn [Nat.eqb].
    assert (Hne : (r =? 10)%Z = false) by (apply Z.eqb_neq; lia).
    rewrite Hne. cbn [drop].
    assert (Hw : w <= String.length pre).
    { destruct (Nat.le_gt_cases w (String.length pre)) as [H|H]; [exact H|].
      cbn [take allBytes] in Hhigh. apply andb_prop in Hhigh.
      destruct Hhigh as [_ Hhigh].
      rewrite (high_run_reaches w pre t Hhigh H) in Ht by lia.
      discriminate. }
    exists (drop w pre). rewrite (drop_append w pre t Hw).
    split; [reflexivity|]. split; [rewrite length_drop; lia|]. now exists w.
Qed.

(** A lazy repetition of [.] stops at the first place where what follows
    matches: when what follows cannot start inside the run and matches
    after it, the repetition takes the run. *)
Lemma plusLazy_run {R : Type} (P : ascii -> bool)
      (k : string -> option R) (t : string) (x : R) :
  (forall c u, P c = true -> k (String c u) = None) ->
  startsWith isHigh t = false ->
  k t = Some x ->
  forall (n : nat) (pre : string) (fuel : nat),
    String.length pre <= n ->
    pre <> "" ->
    allBytes notNewline pre = true ->
    allBytes P pre = true ->
    String.length pre <= fuel ->
    regexp.plusLazy fuel regexp.AnyNotNL (pre ++ t) k = Some x.
Proof.
  intros Hfail Ht Hk. induction n as [|n IH];
    intros pre fuel Hn Hne Hnl HP Hfuel.
  - destruct pre; [now elim Hne | simpl in Hn; lia].
  - destruct pre as [|c pre]; [now elim Hne|].
    destruct fuel as [|fuel]; [simpl in Hfuel; lia|].
    cbn [regexp.plusLazy].
    destruct (matchAtom_any_run c pre t Hnl Ht) as [pre' [Hm [Hlen [m Hdrop]]]].
    rewrite Hm. destruct pre' as [|d pre'].
    + cbn [append]. now rewrite Hk.
    + assert (HP' : allBytes P (String d pre') = true).
      { rewrite Hdrop. apply allBytes_drop.
        cbn [allBytes] in HP. apply andb_prop in HP. tauto. }
      assert (Hnl' : allBytes notNewline (String d pre') = true).
      { rewrite Hdrop. apply allBytes_drop.
        cbn [allBytes] in Hnl. apply andb_prop in Hnl. tauto. }
      cbn [append]. rewrite Hfail
        by (cbn [allBytes] in HP'; apply andb_prop in HP'; tauto).
      change (String d (pre' ++ t)) with (String d pre' ++ t).
      apply IH; try assumption.
      * simpl in Hn. lia.
      * discriminate.
      * simpl in Hfuel. lia.
Qed.

Lemma predicate_needs_bracket {R : Type} (fuel : nat) (t : string)
      (c : regexp.Caps) (k : string -> regexp.Caps -> option R) :
  startsWith (fun b => Ascii.eqb b "[") t = false ->
  regexp.exec fuel predicateRe t c k = None.
Proof.
  intros Ht. cbn [predicateRe xpathRe regexp.exec regexp.matchAtom].
  destruct t as [|b t]; [reflexivity|].
  cbn [startsWith] in Ht. now rewrite Ht.
Qed.

Lemma isQuote_not_high (q : ascii) : isQuote q = true -> isHigh q = false.
Proof.
  unfold isQuote. intros H. apply orb_prop in H.
  destruct H as [H|H]; apply Ascii.eqb_eq in H; subst q; reflexivity.
Qed.

Lemma isQuote_not_word (q : ascii) : isQuote q = true -> isWordOrDash q = false.
Proof.
  unfold isQuote. intros H. apply orb_prop in H.
  destruct H as [H|H]; apply Ascii.eqb_eq in H; subst q; reflexivity.
Qed.

(** The predicate part of the pattern on a well-formed predicate. *)
Lemma exec_predicate {R : Type} (p : Predicate) (rest : string) (fuel : nat)
      (c : regexp.Caps) (k : string -> regexp.Caps -> option R) (x : R) :
  wfPredicate p = true ->
  String.length (predicateText p) <= fuel ->
  k rest (regexp.setCap 3 (predValue p) (regexp.setCap 2 (predTag p) c))
  = Some x ->
  regexp.exec fuel predicateRe (predicateText p ++ rest) c k = Some x.
Proof.
  unfold wfPredicate. intros Hwf Hfuel Hk.
  repeat (apply andb_prop in Hwf; destruct Hwf as [Hwf ?]).
  destruct p as [tag q1 value q2]. cbn [predTag predOpen predValue predClose] in *.
  unfold predicateText in *. cbn [predTag predOpen predValue predClose] in *.
  rewrite !length_append in Hfuel. cbn [String.length] in Hfuel.
  rewrite !length_append in Hfuel. cbn [String.length] in Hfuel.
  apply negb_true_iff, String.eqb_neq in Hwf.
  match goal with H : negb (value =? "") = true |- _ =>
    apply negb_true_iff, String.eqb_neq in H end.
  cbn [predicateRe xpathRe regexp.exec regexp.matchAtom append].
  rewrite Ascii.eqb_refl.
  repeat (rewrite append_assoc; cbn [append]).
  apply (plusLazy_run notEquals) with (n := String.length tag);
    try assumption; try lia.
  - intros b u Hb. unfold notEquals in Hb. apply negb_true_iff in Hb.
    now rewrite Hb.
  - reflexivity.
  - rewrite Ascii.eqb_refl.
    match goal with H : isQuote q1 = true |- _ => rewrite H end.
    apply (plusLazy_run notQuote) with (n := String.length value);
      try assumption; try lia.
    + intros b u Hb. unfold notQuote in Hb. apply negb_true_iff in Hb.
      now rewrite Hb.
    + cbn [startsWith]. now apply isQuote_not_high.
    + match goal with H : isQuote q2 = true |- _ => rewrite H end.
      rewrite Ascii.eqb_refl.
      rewrite !take_append_length. exact Hk.
Qed.

Lemma segmentEnd_facts (rest : string) :
  segmentEnd rest = true ->
  startsWith isWordOrDash rest = false
  /\ startsWith (fun b => Ascii.eqb b "[") rest = false.
Proof.
  destruct rest as [|c rest]; cbn [segmentEnd startsWith]; [now split|].
  intros H. apply Ascii.eqb_eq in H. subst c. now split.
Qed.

Lemma matchHere_wf_segment (s : Segment) (rest : string) :
  wfSegment s = true ->
  segmentEnd rest = true ->
  regexp.matchHere xpathRe (segmentText s ++ rest)
  = Some (submatchOf s, rest).
Proof.
  unfold wfSegment. intros Hwf Hrest.
  apply andb_prop in Hwf. destruct Hwf as [Hwf Hpred].
  apply andb_prop in Hwf. destruct Hwf as [Hne Hname].
  apply negb_true_iff, String.eqb_neq in Hne.
  destruct (segmentEnd_facts rest Hrest) as [Hword Hbracket].
  unfold regexp.matchHere, submatchOf, segmentText.
  destruct s as [name [p|]]; cbn [segName segPred] in *.
  - repeat (rewrite append_assoc; cbn [append]).
    rewrite exec_xpathRe_slash.
    apply plusGreedy_run; try assumption.
    + unfold predicateText. reflexivity.
    + cbn [String.length]. rewrite length_append. lia.
    + cbv zeta. rewrite take_append_length.
      erewrite exec_predicate; [reflexivity | exact Hpred | |].
      * cbn [String.length]. rewrite !length_append. lia.
      * change (String "/" (name ++ predicateText p ++ rest))
          with (String "/" name ++ predicateText p ++ rest).
        rewrite <- append_assoc, take_append_length.
        reflexivity.
  - repeat (rewrite append_assoc; cbn [append]).
    rewrite exec_xpathRe_slash.
    apply plusGreedy_run; try assumption.
    + cbn [String.length]. rewrite length_append. lia.
    + cbv zeta. rewrite take_append_length.
      rewrite predicate_needs_bracket by exact Hbracket.
      change (String "/" (name ++ rest)) with (String "/" name ++ rest).
      rewrite take_append_length. rewrite append_nil_r. reflexivity.
Qed.

Lemma pathText_segmentEnd (segs : list Segment) :
  segmentEnd (pathText segs) = true.
Proof. destruct segs as [|s segs]; reflexivity. Qed.

Lemma segmentText_length (s : Segment) : 0 < String.length (segmentText s).
Proof. unfold segmentText. cbn [append String.length]. lia. Qed.

(** The matches of a well-formed path are its segments, in order. *)
Lemma allMatches_path (segs : list Segment) :
  forall (fuel : nat) (afterMatch : bool),
    forallb wfSegment segs = true ->
    String.length (pathText segs) < fuel ->
    regexp.allMatches fuel xpathRe (pathText segs) afterMatch
    = map submatchOf segs.
Proof.
  induction segs as [|s segs IH]; intros fuel afterMatch Hwf Hfuel;
    (destruct fuel as [|fuel]; [lia|]).
  - reflexivity.
  - cbn [forallb] in Hwf. apply andb_prop in Hwf. destruct Hwf as [Hs Hsegs].
    cbn [pathText regexp.allMatches] in *.
    assert (Hm := matchHere_wf_segment s (pathText segs) Hs
                                       (pathText_segmentEnd segs)).
    assert (Hsearch : regexp.search xpathRe (segmentText s ++ pathText segs)
                      = Some (0, submatchOf s, pathText segs)).
    { destruct (segmentText s ++ pathText segs);
        cbn [regexp.search]; now rewrite Hm. }
    rewrite Hsearch.
    rewrite length_append in *. pose proof (segmentText_length s) as Hpos.
    assert (Hneq : Nat.eqb (String.length (pathText segs))
                           (String.length (segmentText s)
                            + String.length (pathText segs)) = false)
      by (apply Nat.eqb_neq; lia).
    rewrite Hneq. cbn [Nat.eqb andb map]. f_equal.
    apply IH; [exact Hsegs | lia].
Qed.

Lemma fold_parseStep_path (segs : list Segment) :
  forall (buffer : string) (openTags : list string),
    forallb wfSegment segs = true ->
    fold_left parseStep (map submatchOf segs) (buffer, openTags)
    = (buffer ++ opens segs, (openTags ++ map segName segs)%list).
Proof.
  induction segs as [|s segs IH]; intros buffer openTags Hwf.
  - cbn. now rewrite append_nil_r, app_nil_r.
  - cbn [forallb] in Hwf. apply andb_prop in Hwf. destruct Hwf as [Hs Hsegs].
    cbn [map fold_left].
    assert (Hstep : parseStep (buffer, openTags) (submatchOf s)
                    = (buffer ++ ("<" ++ segName s ++ ">") ++ childOf s,
                       (openTags ++ [segName s])%list)).
    { unfold parseStep, submatchOf, sub, childOf. cbn [nth].
      destruct (segPred s) as [p|] eqn:Hp.
      - unfold wfSegment in Hs. rewrite Hp in Hs.
        apply andb_prop in Hs. destruct Hs as [_ Hs]. unfold wfPredicate in Hs.
        repeat (apply andb_prop in Hs; destruct Hs as [Hs ?]).
        rewrite Hs.
        match goal with H : negb (predValue p =? "") = true |- _ =>
          rewrite H end.
        cbn [andb]. now rewrite !append_assoc.
      - cbn. now rewrite append_nil_r. }
    rewrite Hstep, (IH _ _ Hsegs). cbn [opens map].
    rewrite <- app_assoc. cbn [app]. now rewrite !append_assoc.
Qed.

Lemma closeTags_names (segs : list Segment) (buffer : string) :
  closeTags buffer (map segName segs) = buffer ++ closes segs.
Proof.
  unfold closeTags. induction segs as [|s segs IH].
  - cbn. now rewrite append_nil_r.
  - cbn [map rev closes]. rewrite fold_left_app. cbn [fold_left].
    now rewrite IH, append_assoc.
Qed.

Lemma nest_opens_closes (segs : list Segment) :
  nest segs = opens segs ++ closes segs.
Proof.
  induction segs as [|s segs IH]; [reflexivity|].
  cbn [nest opens closes]. rewrite IH.
  now repeat (rewrite !append_assoc; cbn [append]).
Qed.

(** From the matches of a path to its document. *)
Lemma parseXPathToXML_of_matches (xpath : string) (segs : list Segment) :
  HasPrefix xpath "/" = true ->
  regexp.FindAllStringSubmatch xpathRe xpath = map submatchOf segs ->
  segs <> [] ->
  forallb wfSegment segs = true ->
  parseXPathToXML xpath = (nest segs, None).
Proof.
  intros Hp Hmatches Hne Hwf. unfold parseXPathToXML.
  rewrite Hp, Hmatches. cbn [negb].
  destruct segs as [|s segs]; [now elim Hne|].
  cbn [map List.length Nat.eqb].
  change (submatchOf s :: map submatchOf segs)
    with (map submatchOf (s :: segs)).
  rewrite (fold_parseStep_path (s :: segs) "" [] Hwf).
  cbn [app]. change (segName s :: map segName segs)
               with (map segName (s :: segs)).
  rewrite closeTags_names. now rewrite nest_opens_closes.
Qed.

Lemma pathText_HasPrefix (segs : list Segment) :
  segs <> [] -> HasPrefix (pathText segs) "/" = true.
Proof.
  intros Hne. destruct segs as [|s segs]; [now elim Hne|].
  apply HasPrefix_slash. cbn [pathText]. unfold segmentText.
  cbn [append]. eauto.
Qed.

(** X1: a path of well-formed segments, each [/name] or
    [/name[tag=qvalueq']], is translated into nested elements: every
    segment is an element named after it that holds first, if the segment
    has a predicate, an element named [tag] with the escaped value as
    its text, and then the element of the next segment. *)
Theorem parseXPathToXML_path (segs : list Segment) :
  segs <> [] ->
  forallb wfSegment segs = true ->
  parseXPathToXML (pathText segs) = (nest segs, None).
Proof.
  intros Hne Hwf.
  apply parseXPathToXML_of_matches; try assumption.
  - now apply pathText_HasPrefix.
  - unfold regexp.FindAllStringSubmatch.
    apply allMatches_path; [exact Hwf | lia].
Qed.

Lemma parseXPathToXML_path_witness :
  parseXPathToXML (pathText samplePath) = (nest samplePath, None).
Proof.
  apply parseXPathToXML_path.
  - discriminate.
  - vm_compute. reflexivity.
Defined.

Lemma EscapeString_safe (s : string) :
  allBytes notMarkup (html.EscapeString s) = true.
Proof.
  induction s as [|c s IH]; [reflexivity|].
  cbn [html.EscapeString]. rewrite allBytes_append, IH, andb_true_r.
  unfold html.escapeByte.
  destruct (Ascii.eqb_spec c "&"); [reflexivity|].
  destruct (Ascii.eqb_spec c squote); [reflexivity|].
  destruct (Ascii.eqb_spec c "<"); [reflexivity|].
  destruct (Ascii.eqb_spec c ">"); [reflexivity|].
  destruct (Ascii.eqb_spec c dquote); [reflexivity|].
  cbn [allBytes]. unfold notMarkup.
  repeat match goal with
         | H : c <> ?d |- _ => apply Ascii.eqb_neq in H; rewrite H; clear H
         end.
  reflexivity.
Qed.

(** X4: the tag name that [Datastore.MarshalXML] writes for a non-empty
    identifier is not empty and holds none of [<], [>] and the two quote
    characters, whatever bytes the identifier holds: the identifier
    cannot close the tag it is written in. *)
Theorem Datastore_MarshalXML_markup_free (s : Datastore) (e : xml.Encoder)
        (start : xml.StartElement) :
  s <> "" -> xml.Local start <> "" ->
  exists tag,
    Datastore.MarshalXML s e start
    = (e ++ "<" ++ xml.Local start ++ ">" ++ "<" ++ tag ++ "/>"
         ++ "</" ++ xml.Local start ++ ">", None)
    /\ tag <> ""
    /\ allBytes notMarkup tag = true.
Proof.
  intros Hs Hstart. exists (xml.escapeText 0 s). split; [|split].
  - now apply Datastore_MarshalXML_nonempty.
  - now apply escapeText_nonempty.
  - apply escapeText_safe.
Qed.

Lemma Datastore_MarshalXML_markup_free_witness :
  exists tag,
    Datastore.MarshalXML "x/><y" "" (xml.mkStart "target")
    = ("" ++ "<" ++ "target" ++ ">" ++ "<" ++ tag ++ "/>"
          ++ "</" ++ "target" ++ ">", None)
    /\ tag <> ""
    /\ allBytes notMarkup tag = true.
Proof.
  apply (Datastore_MarshalXML_markup_free "x/><y" "" (xml.mkStart "target")).
  - discriminate.
  - simpl; discriminate.
Defined.

(** ** GetConfig with filter options *)

Lemma subtreeFilter_nonempty (t : string) : subtreeFilter t <> "".
Proof. unfold subtreeFilter. discriminate. Qed.

Lemma getConfigReq_snoc (source : Datastore) (opts : list rpcOptions)
      (opt : rpcOptions) :
  Session.getConfigReq source (opts ++ [opt])
  = opt (Session.getConfigReq source opts).
Proof. unfold Session.getConfigReq. now rewrite fold_left_app. Qed.

Lemma WithFilter_fold_inv (paths : list string) :
  forall req : GetConfigReq,
    let req' := fold_left (fun req opt => opt req) (map WithFilter paths) req in
    GetConfigReq_Source req' = GetConfigReq_Source req
    /\ ((GetConfigReq_Filter req' = GetConfigReq_Filter req
         /\ forall x, In x paths -> snd (parseXPathToXML x) <> None)
        \/ exists x t, In x paths /\ parseXPathToXML x = (t, None)
                       /\ GetConfigReq_Filter req' = subtreeFilter t).
Proof.
  induction paths as [|x paths IH]; intros req; cbn [map fold_left].
  - split; [reflexivity|]. left. split; [reflexivity | intros x []].
  - destruct (IH (WithFilter x req)) as [Hsrc Hfil].
    destruct (parseXPathToXML x) as [t [err|]] eqn:Hx.
    + assert (Hw : WithFilter x req = req)
        by (unfold WithFilter; now rewrite Hx).
      rewrite Hw in *. split; [exact Hsrc|].
      destruct Hfil as [[Heq Hall]|[y [u [Hin [Hy Hf]]]]].
      * left. split; [exact Heq|].
        intros y [<-|Hy]; [rewrite Hx; discriminate | now apply Hall].
      * right. exists y, u. split; [now right|]. now split.
    + assert (Hw : WithFilter x req
                   = mkGetConfigReq (GetConfigReq_Source req) (subtreeFilter t))
        by (unfold WithFilter; now rewrite Hx).
      rewrite Hw in *. split; [exact Hsrc|].
      destruct Hfil as [[Heq Hall]|[y [u [Hin [Hy Hf]]]]].
      * right. exists x, t. split; [now left|]. split; [exact Hx|].
        exact Heq.
      * right. exists y, u. split; [now right|]. now split.
Qed.

(** X8: [GetConfig] with a list of [WithFilter] options sends one
    request, for the given source.  Its filter is empty exactly when no
    path translates; otherwise it is the [filter] element around the
    translation of one of the paths: of the last path when that one
    translates, and a path that does not translate changes nothing. *)
Theorem GetConfig_WithFilter_request `{Runtime} (source : Datastore)
        (paths : list string) :
  let req := Session.getConfigReq source (map WithFilter paths) in
  (forall (S : Type) (call : Request -> S -> Response * option error * S)
          (s : S),
      snd (fst (run call (Session.GetConfig source (map WithFilter paths)) s))
      = [GetConfigCall req])
  /\ GetConfigReq_Source req = source
  /\ (GetConfigReq_Filter req = ""
      <-> forall x, In x paths -> snd (parseXPathToXML x) <> None)
  /\ (GetConfigReq_Filter req <> "" ->
      exists x t, In x paths /\ parseXPathToXML x = (t, None)
                  /\ GetConfigReq_Filter req = subtreeFilter t)
  /\ (forall front x t,
         paths = (front ++ [x])%list -> parseXPathToXML x = (t, None) ->
         GetConfigReq_Filter req = subtreeFilter t)
  /\ (forall front x,
         paths = (front ++ [x])%list -> snd (parseXPathToXML x) <> None ->
         req = Session.getConfigReq source (map WithFilter front)).
Proof.
  intros req.
  destruct (WithFilter_fold_inv paths (mkGetConfigReq source ""))
    as [Hsrc Hfil].
  fold (Session.getConfigReq source (map WithFilter paths)) in Hsrc, Hfil.
  fold req in Hsrc, Hfil. cbn [GetConfigReq_Source GetConfigReq_Filter] in *.
  split; [|split; [exact Hsrc|split; [|split; [|split]]]].
  - intros S call s. unfold Session.GetConfig. fold req. cbn [run].
    destruct (call (GetConfigCall req) s) as [[resp err] s'].
    now destruct err.
  - split.
    + intros Hempty. destruct Hfil as [[_ Hall]|[x [t [_ [_ Hf]]]]];
        [exact Hall|].
      rewrite Hf in Hempty. now elim (subtreeFilter_nonempty t).
    + intros Hall. destruct Hfil as [[Heq _]|[x [t [Hin [Hx _]]]]];
        [exact Heq|].
      elim (Hall x Hin). now rewrite Hx.
  - intros Hne. destruct Hfil as [[Heq _]|Hex]; [now elim Hne | exact Hex].
  - intros front x t -> Hx. subst req.
    rewrite map_app. cbn [map]. rewrite getConfigReq_snoc.
    unfold WithFilter. now rewrite Hx.
  - intros front x -> Hx. subst req.
    rewrite map_app. cbn [map]. rewrite getConfigReq_snoc.
    now apply WithFilter_error.
Qed.

Lemma GetConfig_WithFilter_request_witness :
  GetConfigReq_Filter
    (Session.getConfigReq Running (map WithFilter ["/a"; "b"; "/c/d"; "e"]))
  = subtreeFilter "<c><d></d></c>".
Proof.
  assert (E : Session.getConfigReq Running (map WithFilter ["/a"; "b"; "/c/d"; "e"])
              = Session.getConfigReq Running (map WithFilter ["/a"; "b"; "/c/d"])).
  { refine (proj2 (proj2 (proj2 (proj2 (proj2
             (@GetConfig_WithFilter_request textRuntime Running
                                            ["/a"; "b"; "/c/d"; "e"])))))
             ["/a"; "b"; "/c/d"] "e" eq_refl _).
    vm_compute. discriminate. }
  rewrite E.
  refine (proj1 (proj2 (proj2 (proj2 (proj2
            (@GetConfig_WithFilter_request textRuntime Running
                                           ["/a"; "b"; "/c/d"])))))
            ["/a"; "b"] "/c/d" "<c><d></d></c>" eq_refl _).
  vm_compute. reflexivity.
Defined.

(** ** The outcomes of Commit *)

Lemma PersistID_fold_none (opts : list CommitOption) (req : CommitReq) :
  (forall id, ~ In (persistID id) opts) ->
  PersistID (fold_left (fun req opt => CommitOption.apply opt req) opts req)
  = PersistID req.
Proof.
  revert req. induction opts as [|o opts IH]; intros req Hno; [reflexivity|].
  cbn [fold_left]. rewrite IH by (intros id Hin; apply (Hno id); now right).
  destruct o; try reflexivity. elim (Hno o). now left.
Qed.

(** X11: [Commit] returns its validation error exactly when the options
    hold a confirmed directive and the persist-id of the request is not
    empty; in every other case it sends one request, the one built from
    the options, and returns the error of [Session.Call].  The persist-id
    of the request is that of the last [WithPersistID] option, and empty
    when there is none. *)
Theorem Commit_fails_locally_iff `{Runtime} (opts : list CommitOption) :
  (Session.Commit opts = Return (Some errPersistID)
   <-> (exists o, In o opts /\ isConfirmedDirective o = true)
       /\ PersistID (Session.commitReq opts) <> "")
  /\ (Session.Commit opts <> Return (Some errPersistID) ->
      forall (S : Type) (call : Request -> S -> Response * option error * S)
             (s : S),
        run call (Session.Commit opts) s
        = (snd (fst (call (CommitCall (Session.commitReq opts)) s)),
           [CommitCall (Session.commitReq opts)],
           snd (call (CommitCall (Session.commitReq opts)) s)))
  /\ (forall front id back,
         opts = (front ++ persistID id :: back)%list ->
         (forall id', ~ In (persistID id') back) ->
         PersistID (Session.commitReq opts) = id)
  /\ ((forall id, ~ In (persistID id) opts) ->
      PersistID (Session.commitReq opts) = "").
Proof.
  split; [|split; [|split]].
  - rewrite Commit_outcome, andb_true_iff, negb_true_iff, String.eqb_neq.
    rewrite Confirmed_commitReq, existsb_exists. tauto.
  - intros Hne S call s.
    assert (Hc : negb (String.eqb (PersistID (Session.commitReq opts)) "")
                 && Confirmed (Session.commitReq opts) = false).
    { destruct (negb (String.eqb (PersistID (Session.commitReq opts)) "")
                && Confirmed (Session.commitReq opts)) eqn:E; [|reflexivity].
      elim Hne. now apply Commit_outcome. }
    rewrite (Commit_called opts Hc). cbn [run].
    now destruct (call (CommitCall (Session.commitReq opts)) s)
      as [[resp err] s'].
  - intros front id back -> Hback. unfold Session.commitReq.
    rewrite fold_left_app. cbn [fold_left].
    now rewrite PersistID_fold_none.
  - intros Hno. unfold Session.commitReq. now rewrite PersistID_fold_none.
Qed.

Lemma Commit_fails_locally_iff_witness :
  PersistID (Session.commitReq
               [WithPersistID "a"; WithPersist "p"; WithPersistID "b";
                WithConfirmed]) = "b".
Proof.
  refine (proj1 (proj2 (proj2 (@Commit_fails_locally_iff textRuntime
            [WithPersistID "a"; WithPersist "p"; WithPersistID "b";
             WithConfirmed])))
            [WithPersistID "a"; WithPersist "p"] "b" [WithConfirmed]
            eq_refl _).
  intros id' [Hin|[]]. discriminate Hin.
Defined.

(** ** Presence booleans on malformed input *)



(** ** The options of EditConfig *)

Lemma EditConfigOption_fold_Target `{Runtime} (opts : list EditConfigOption)
      (req : EditConfigReq) :
  EditConfigReq_Target
    (fold_left (fun req opt => EditConfigOption.apply opt req) opts req)
  = EditConfigReq_Target req.
Proof.
  revert req. induction opts as [|o opts IH]; intros req; [reflexivity|].
  cbn [fold_left]. rewrite IH. now destruct o.
Qed.

(** A strategy field keeps its value when no option of its kind is
    applied. *)
Lemma EditConfigOption_fold_strategies `{Runtime}
      (opts : list EditConfigOption) (req : EditConfigReq) :
  let req' := fold_left (fun req opt => EditConfigOption.apply opt req)
                        opts req in
  (existsb isDefaultMergeStrategy opts = false ->
   EditConfigReq_DefaultMergeStrategy req'
   = EditConfigReq_DefaultMergeStrategy req)
  /\ (existsb isTestStrategy opts = false ->
      EditConfigReq_TestStrategy req' = EditConfigReq_TestStrategy req)
  /\ (existsb isErrorStrategy opts = false ->
      EditConfigReq_ErrorStrategy req' = EditConfigReq_ErrorStrategy req).
Proof.
  revert req. induction opts as [|o opts IH]; intros req;
    [repeat split|].
  cbn [fold_left existsb].
  destruct (IH (EditConfigOption.apply o req)) as [H1 [H2 H3]].
  cbv zeta in *.
  split; [|split]; intros Hno; apply orb_false_elim in Hno;
    destruct Hno as [Ho Hno]; destruct o; cbn in Ho; try discriminate Ho.
  1,2: now rewrite H1.
  1,2: now rewrite H2.
  1,2: now rewrite H3.
Qed.

(** X10: the options of [EditConfig] set the three strategy fields and
    nothing else: the target, the config and the url of the request are
    those of the call without options.  Each strategy is the one of the
    last option of its kind, and empty (left out of the request) when there
    is none. *)
Theorem EditConfig_options `{Runtime} (target : Datastore) (config : any)
        (opts : list EditConfigOption) :
  let req := Session.editConfigReq target config opts in
  EditConfigReq_Target req = target
  /\ EditConfigReq_Config req
     = EditConfigReq_Config (Session.editConfigReq target config [])
  /\ EditConfigReq_URL req
     = EditConfigReq_URL (Session.editConfigReq target config [])
  /\ (forall front v back,
         opts = (front ++ defaultMergeStrategy v :: back)%list ->
         existsb isDefaultMergeStrategy back = false ->
         EditConfigReq_DefaultMergeStrategy req = v)
  /\ (forall front v back,
         opts = (front ++ testStrategy v :: back)%list ->
         existsb isTestStrategy back = false ->
         EditConfigReq_TestStrategy req = v)
  /\ (forall front v back,
         opts = (front ++ errorStrategy v :: back)%list ->
         existsb isErrorStrategy back = false ->
         EditConfigReq_ErrorStrategy req = v)
  /\ (existsb isDefaultMergeStrategy opts = false ->
      EditConfigReq_DefaultMergeStrategy req = "")
  /\ (existsb isTestStrategy opts = false ->
      EditConfigReq_TestStrategy req = "")
  /\ (existsb isErrorStrategy opts = false ->
      EditConfigReq_ErrorStrategy req = "").
Proof.
  intros req. subst req.
  set (base := Session.editConfigReq target config []).
  change (Session.editConfigReq target config opts)
    with (fold_left (fun req opt => EditConfigOption.apply opt req) opts base).
  assert (Hbase : EditConfigReq_Target base = target
                  /\ EditConfigReq_DefaultMergeStrategy base = ""
                  /\ EditConfigReq_TestStrategy base = ""
                  /\ EditConfigReq_ErrorStrategy base = "")
    by (subst base; destruct config; repeat split).
  destruct Hbase as [Ht [Hd [Hts He]]].
  split; [|split; [|split]].
  - now rewrite EditConfigOption_fold_Target.
  - now destruct (EditConfigOption_fold_Config opts base) as [-> _].
  - now destruct (EditConfigOption_fold_Config opts base) as [_ ->].
  - repeat split.
    + intros front v back -> Hback. rewrite fold_left_app. cbn [fold_left].
      now rewrite (proj1 (EditConfigOption_fold_strategies back _) Hback).
    + intros front v back -> Hback. rewrite fold_left_app. cbn [fold_left].
      now rewrite (proj1 (proj2 (EditConfigOption_fold_strategies back _)) Hback).
    + intros front v back -> Hback. rewrite fold_left_app. cbn [fold_left].
      now rewrite (proj2 (proj2 (EditConfigOption_fold_strategies back _)) Hback).
    + intros Hno.
      now rewrite (proj1 (EditConfigOption_fold_strategies opts _) Hno).
    + intros Hno.
      now rewrite (proj1 (proj2 (EditConfigOption_fold_strategies opts _)) Hno).
    + intros Hno.
      now rewrite (proj2 (proj2 (EditConfigOption_fold_strategies opts _)) Hno).
Qed.

Lemma EditConfig_options_witness :
  EditConfigReq_TestStrategy
    (@Session.editConfigReq
       textRuntime Candidate (string_any "<top/>")
       [WithTestStrategy "set"; WithErrorStrategy "stop-on-error";
        WithTestStrategy "test-only"; WithDefaultMergeStrategy "merge"])
  = "test-only".
Proof.
  refine (proj1 (proj2 (proj2 (proj2 (proj2
            (@EditConfig_options
               textRuntime Candidate (string_any "<top/>")
               [WithTestStrategy "set"; WithErrorStrategy "stop-on-error";
                WithTestStrategy "test-only"; WithDefaultMergeStrategy "merge"])))))
            [WithTestStrategy "set"; WithErrorStrategy "stop-on-error"]
            "test-only" [WithDefaultMergeStrategy "merge"] eq_refl eq_refl).
Defined.

(** ** CreateSubscription *)

Lemma CreateSubscription_fold_kept `{Runtime}
      (opts : list CreateSubscriptionOption) :
  forall req : CreateSubscriptionReq,
    let req' := fold_left (fun req opt => CreateSubscriptionOption.apply opt req)
                          opts req in
    ((forall v, ~ In (stream v) opts) -> Stream req' = Stream req)
    /\ ((forall v, ~ In (startTime v) opts) -> StartTime req' = StartTime req)
    /\ ((forall v, ~ In (endTime v) opts) -> EndTime req' = EndTime req)
    /\ ((forall x, In (filter x) opts -> snd (parseXPathToXML x) <> None) ->
        CreateSubscriptionReq_Filter req' = CreateSubscriptionReq_Filter req).
Proof.
  induction opts as [|o opts IH]; intros req; [repeat split|].
  cbn [fold_left]. cbv zeta.
  destruct (IH (CreateSubscriptionOption.apply o req)) as [H1 [H2 [H3 H4]]].
  split; [|split; [|split]]; intros Hno.
  - rewrite H1 by (intros v Hin; apply (Hno v); now right).
    destruct o as [v|v|v|x]; try reflexivity.
    + elim (Hno v). now left.
    + cbn [CreateSubscriptionOption.apply].
      now destruct (parseXPathToXML x) as [t [err|]].
  - rewrite H2 by (intros v Hin; apply (Hno v); now right).
    destruct o as [v|v|v|x]; try reflexivity.
    + elim (Hno v). now left.
    + cbn [CreateSubscriptionOption.apply].
      now destruct (parseXPathToXML x) as [t [err|]].
  - rewrite H3 by (intros v Hin; apply (Hno v); now right).
    destruct o as [v|v|v|x]; try reflexivity.
    + elim (Hno v). now left.
    + cbn [CreateSubscriptionOption.apply].
      now destruct (parseXPathToXML x) as [t [err|]].
  - rewrite H4 by (intros v Hin; apply (Hno v); now right).
    destruct o as [v|v|v|x]; try reflexivity.
    cbn [CreateSubscriptionOption.apply].
    destruct (parseXPathToXML x) as [t [err|]] eqn:Hx; [reflexivity|].
    elim (Hno x); [now left | now rewrite Hx].
Qed.

Lemma CreateSubscription_fold_filter `{Runtime}
      (opts : list CreateSubscriptionOption) :
  forall req : CreateSubscriptionReq,
    let req' := fold_left (fun req opt => CreateSubscriptionOption.apply opt req)
                          opts req in
    CreateSubscriptionReq_Filter req' = CreateSubscriptionReq_Filter req
    \/ exists x t, In (filter x) opts /\ parseXPathToXML x = (t, None)
                   /\ CreateSubscriptionReq_Filter req' = subtreeFilter t.
Proof.
  induction opts as [|o opts IH]; intros req; [now left|].
  cbn [fold_left]. cbv zeta.
  destruct (IH (CreateSubscriptionOption.apply o req))
    as [Heq|[x [t [Hin [Hx Hf]]]]].
  - destruct o as [v|v|v|x]; try (left; exact Heq).
    cbn [CreateSubscriptionOption.apply] in Heq |- *.
    destruct (parseXPathToXML x) as [t [err|]] eqn:Hx; [left; exact Heq|].
    right. exists x, t. split; [now left|]. split; [exact Hx|]. exact Heq.
  - right. exists x, t. split; [now right|]. now split.
Qed.

(** X9: [CreateSubscription] never fails before the call: it sends one
    request and returns the error of [Session.Call].  In the request each
    field is set by the last option of its kind: the stream name, the
    formatted start and end times, and the filter, for which the options
    whose path does not translate do not count. *)
Theorem CreateSubscription_request `{Runtime}
        (opts : list CreateSubscriptionOption) :
  let req := Session.createSubscriptionReq opts in
  (forall (S : Type) (call : Request -> S -> Response * option error * S)
          (s : S),
      run call (Session.CreateSubscription opts) s
      = (snd (fst (call (CreateSubscriptionCall req) s)),
         [CreateSubscriptionCall req],
         snd (call (CreateSubscriptionCall req) s)))
  /\ (CreateSubscriptionReq_Filter req = ""
      \/ exists x t, In (filter x) opts /\ parseXPathToXML x = (t, None)
                     /\ CreateSubscriptionReq_Filter req = subtreeFilter t)
  /\ ((forall x, In (filter x) opts -> snd (parseXPathToXML x) <> None) ->
      CreateSubscriptionReq_Filter req = "")
  /\ (forall front v back,
         opts = (front ++ stream v :: back)%list ->
         (forall v', ~ In (stream v') back) ->
         Stream req = v)
  /\ (forall front v back,
         opts = (front ++ startTime v :: back)%list ->
         (forall v', ~ In (startTime v') back) ->
         StartTime req = FormatRFC3339 v)
  /\ (forall front v back,
         opts = (front ++ endTime v :: back)%list ->
         (forall v', ~ In (endTime v') back) ->
         EndTime req = FormatRFC3339 v)
  /\ (forall front x t back,
         opts = (front ++ filter x :: back)%list ->
         parseXPathToXML x = (t, None) ->
         (forall y, In (filter y) back -> snd (parseXPathToXML y) <> None) ->
         CreateSubscriptionReq_Filter req = subtreeFilter t).
Proof.
  intros req. split; [|split; [|split; [|split; [|split; [|split]]]]].
  - intros S call s. unfold Session.CreateSubscription. fold req. cbn [run].
    now destruct (call (CreateSubscriptionCall req) s) as [[resp err] s'].
  - exact (CreateSubscription_fold_filter
             opts (mkCreateSubscriptionReq "" "" "" "")).
  - intros Hno.
    exact (proj2 (proj2 (proj2 (CreateSubscription_fold_kept
             opts (mkCreateSubscriptionReq "" "" "" ""))))
             Hno).
  - intros front v back E Hback. subst req opts.
    unfold Session.createSubscriptionReq. rewrite fold_left_app.
    cbn [fold_left].
    now rewrite (proj1 (CreateSubscription_fold_kept back _) Hback).
  - intros front v back E Hback. subst req opts.
    unfold Session.createSubscriptionReq. rewrite fold_left_app.
    cbn [fold_left].
    now rewrite (proj1 (proj2 (CreateSubscription_fold_kept back _)) Hback).
  - intros front v back E Hback. subst req opts.
    unfold Session.createSubscriptionReq. rewrite fold_left_app.
    cbn [fold_left].
    now rewrite (proj1 (proj2 (proj2 (CreateSubscription_fold_kept back _)))
                       Hback).
  - intros front x t back E Hx Hback. subst req opts.
    unfold Session.createSubscriptionReq. rewrite fold_left_app.
    cbn [fold_left].
    rewrite (proj2 (proj2 (proj2 (CreateSubscription_fold_kept back _)))
                   Hback).
    cbn [CreateSubscriptionOption.apply]. now rewrite Hx.
Qed.

Lemma CreateSubscription_request_witness :
  CreateSubscriptionReq_Filter
    (@Session.createSubscriptionReq
       textRuntime
       [WithFilterOption "/a"; WithStreamOption "NETCONF";
        WithFilterOption "/b[c='d']"; WithFilterOption "junk"])
  = subtreeFilter "<b><c>d</c></b>".
Proof.
  refine (proj2 (proj2 (proj2 (proj2 (proj2 (proj2
            (@CreateSubscription_request
               textRuntime
               [WithFilterOption "/a"; WithStreamOption "NETCONF";
                WithFilterOption "/b[c='d']"; WithFilterOption "junk"]))))))
            [WithFilterOption "/a"; WithStreamOption "NETCONF"]
            "/b[c='d']" "<b><c>d</c></b>" [WithFilterOption "junk"]
            eq_refl _ _).
  - vm_compute. reflexivity.
  - intros y [Hy|[]]. injection Hy as <-. vm_compute. discriminate.
Defined.

(** ** The encoding of a URL *)



(** ** The selector read back *)

Lemma isNameByte_plain (c : ascii) :
  xml.isNameByte c = true -> isPlainByte c = true.
Proof.
  destruct c as [[] [] [] [] [] [] [] []]; vm_compute; intros H;
    (reflexivity || discriminate H).
Qed.

Lemma validName_plain (n : string) : validName n = true -> isPlain n = true.
Proof.
  unfold validName. intros H. apply andb_prop in H. destruct H as [_ H].
  induction n as [|c n IH]; [reflexivity|].
  cbn [allBytes isPlain] in *. apply andb_prop in H. destruct H as [Hc Hn].
  now rewrite (isNameByte_plain c Hc), IH.
Qed.

Lemma tokenize_start (fuel : nat) (n rest : string) :
  validName n = true ->
  xml.tokenize (S fuel) ("<" ++ n ++ ">" ++ rest)
  = option_map (cons (xml.TStartElement n)) (xml.tokenize fuel rest).
Proof.
  unfold validName. intros H. apply andb_prop in H. destruct H as [Hname Hbytes].
  destruct n as [|c n]; [discriminate|]. cbn [xml.isName] in Hname.
  change ("<" ++ String c n ++ ">" ++ rest)
    with (String "<" (String c (n ++ String ">" rest))).
  cbn [xml.tokenize]. rewrite Ascii.eqb_refl, (isLetter_not_slash c Hname).
  change (String c (n ++ String ">" rest)) with (String c n ++ String ">" rest).
  rewrite (span_name xml.isNameByte (String c n) ">" rest Hbytes eq_refl).
  cbn [xml.isName]. now rewrite Hname, Ascii.eqb_refl.
Qed.

Lemma tokenize_end (fuel : nat) (n rest : string) :
  validName n = true ->
  xml.tokenize (S fuel) ("</" ++ n ++ ">" ++ rest)
  = option_map (cons (xml.TEndElement n)) (xml.tokenize fuel rest).
Proof.
  unfold validName. intros H. apply andb_prop in H. destruct H as [Hname Hbytes].
  change ("</" ++ n ++ ">" ++ rest)
    with (String "<" (String "/" (n ++ String ">" rest))).
  cbn [xml.tokenize]. rewrite !Ascii.eqb_refl.
  rewrite (span_name xml.isNameByte n ">" rest Hbytes eq_refl).
  now rewrite Hname, Ascii.eqb_refl.
Qed.

Lemma tokenize_empty (fuel : nat) (n rest : string) :
  validName n = true ->
  xml.tokenize (S fuel) ("<" ++ n ++ "/>" ++ rest)
  = option_map (fun ts => xml.TStartElement n :: xml.TEndElement n :: ts)
               (xml.tokenize fuel rest).
Proof.
  unfold validName. intros H. apply andb_prop in H. destruct H as [Hname Hbytes].
  destruct n as [|c n]; [discriminate|]. cbn [xml.isName] in Hname.
  change ("<" ++ String c n ++ "/>" ++ rest)
    with (String "<" (String c (n ++ String "/" (String ">" rest)))).
  cbn [xml.tokenize]. rewrite Ascii.eqb_refl, (isLetter_not_slash c Hname).
  change (String c (n ++ String "/" (String ">" rest)))
    with (String c n ++ String "/" (String ">" rest)).
  rewrite (span_name xml.isNameByte (String c n) "/" (String ">" rest)
                     Hbytes eq_refl).
  cbn [xml.isName]. rewrite Hname. cbn [andb].
  change (Ascii.eqb "/" ">") with false. cbn [andb].
  now rewrite !Ascii.eqb_refl.
Qed.

(** X5: for an identifier that is an XML name, what
    [Datastore.MarshalXML] writes reads back as the selector element
    holding one empty element named by the identifier. *)
Theorem Datastore_MarshalXML_tokens (s : Datastore) (start : xml.StartElement) :
  validName s = true ->
  validName (xml.Local start) = true ->
  snd (Datastore.MarshalXML s "" start) = None
  /\ xml.Tokens (fst (Datastore.MarshalXML s "" start))
     = Some [xml.TStartElement (xml.Local start); xml.TStartElement s;
             xml.TEndElement s; xml.TEndElement (xml.Local start)].
Proof.
  intros Hs Hstart.
  assert (Hs' : s <> "") by (intros ->; discriminate Hs).
  assert (Hst' : xml.Local start <> "") by (intros E; rewrite E in Hstart;
                                            discriminate Hstart).
  rewrite (Datastore_MarshalXML_nonempty s "" start Hs' Hst').
  rewrite (escapeText_plain s (validName_plain s Hs)).
  cbn [fst snd append]. split; [reflexivity|].
  unfold xml.Tokens.
  match goal with
  | |- xml.tokenize (String.length ?d) ?d = _ => set (doc := d)
  end.
  assert (Hlen : 3 <= String.length doc).
  { subst doc. cbn [String.length]. rewrite length_append.
    cbn [append String.length]. lia. }
  destruct (String.length doc) as [|[|[|fuel]]]; try lia.
  subst doc.
  match goal with
  | |- xml.tokenize _ ?d = _ =>
    change d
      with ("<" ++ xml.Local start ++ ">"
                ++ ("<" ++ s ++ "/>" ++ ("</" ++ xml.Local start ++ ">" ++ "")))
  end.
  rewrite tokenize_start by exact Hstart.
  rewrite tokenize_empty by exact Hs.
  rewrite tokenize_end by exact Hstart.
  now destruct fuel.
Qed.

Lemma Datastore_MarshalXML_tokens_witness :
  xml.Tokens (fst (Datastore.MarshalXML Candidate "" (xml.mkStart "target")))
  = Some [xml.TStartElement "target"; xml.TStartElement "candidate";
          xml.TEndElement "candidate"; xml.TEndElement "target"].
Proof.
  refine (proj2 (Datastore_MarshalXML_tokens Candidate (xml.mkStart "target")
                                             _ _)).
  - vm_compute. reflexivity.
  - vm_compute. reflexivity.
Defined.

(** ** Text between the segments of a path *)

Lemma matchHere_wf_segment_follow (s : Segment) (rest : string) :
  wfSegment s = true ->
  followOK s rest = true ->
  regexp.matchHere xpathRe (segmentText s ++ rest)
  = Some (submatchOf s, rest).
Proof.
  unfold wfSegment, followOK. intros Hwf Hrest.
  apply andb_prop in Hwf. destruct Hwf as [Hwf Hpred].
  apply andb_prop in Hwf. destruct Hwf as [Hne Hname].
  apply negb_true_iff, String.eqb_neq in Hne.
  unfold regexp.matchHere, submatchOf, segmentText.
  destruct s as [name [p|]]; cbn [segName segPred] in *.
  - repeat (rewrite append_assoc; cbn [append]).
    rewrite exec_xpathRe_slash.
    apply plusGreedy_run; try assumption.
    + unfold predicateText. reflexivity.
    + cbn [String.length]. rewrite length_append. lia.
    + cbv zeta. rewrite take_append_length.
      erewrite exec_predicate; [reflexivity | exact Hpred | |].
      * cbn [String.length]. rewrite !length_append. lia.
      * change (String "/" (name ++ predicateText p ++ rest))
          with (String "/" name ++ predicateText p ++ rest).
        rewrite <- append_assoc, take_append_length.
        reflexivity.
  - apply andb_prop in Hrest. destruct Hrest as [Hword Hbracket].
    apply negb_true_iff in Hword, Hbracket.
    repeat (rewrite append_assoc; cbn [append]).
    rewrite exec_xpathRe_slash.
    apply plusGreedy_run; try assumption.
    + cbn [String.length]. rewrite length_append. lia.
    + cbv zeta. rewrite take_append_length.
      rewrite predicate_needs_bracket by exact Hbracket.
      change (String "/" (name ++ rest)) with (String "/" name ++ rest).
      rewrite take_append_length. rewrite append_nil_r. reflexivity.
Qed.

Lemma followOK_gap (s : Segment) (gap rest : string) :
  followOK s (gap ++ "/") = true ->
  segmentEnd rest = true ->
  followOK s (gap ++ rest) = true.
Proof.
  unfold followOK. destruct (segPred s); [reflexivity|].
  destruct gap as [|c gap]; cbn [append startsWith]; [|tauto].
  intros _. destruct rest as [|c rest]; [reflexivity|].
  cbn [segmentEnd startsWith]. intros H. apply Ascii.eqb_eq in H. now subst c.
Qed.

Lemma gapText_segmentEnd (items : list (Segment * string)) :
  segmentEnd (gapText items) = true.
Proof. destruct items as [|[s gap] items]; reflexivity. Qed.

(** Bytes before the first separator are passed over by the search. *)
Lemma search_gap (gap rest : string) :
  allBytes notSlash gap = true ->
  regexp.search xpathRe (gap ++ rest)
  = match regexp.search xpathRe rest with
    | Some (n, m, r) => Some (String.length gap + n, m, r)
    | None => None
    end.
Proof.
  induction gap as [|c gap IH]; intros Hgap.
  - cbn [append String.length Nat.add].
    now destruct (regexp.search xpathRe rest) as [[[n m] r]|].
  - cbn [allBytes] in Hgap. apply andb_prop in Hgap. destruct Hgap as [Hc Hgap].
    cbn [append regexp.search].
    rewrite matchHere_not_slash.
    + rewrite (IH Hgap).
      now destruct (regexp.search xpathRe rest) as [[[n m] r]|].
    + cbn [startsWith]. unfold notSlash in Hc. apply negb_true_iff in Hc.
      now rewrite Ascii.eqb_sym.
Qed.

Lemma skipped_gap (gap : string) :
  allBytes notSlash gap = true -> skipped gap.
Proof. intros Hgap rest _. now apply search_gap. Qed.

Lemma skipped_lead (lead : string) :
  allBytes notSlash lead = true ->
  startsWith isWordOrDash lead = false ->
  skipped (String "/" lead).
Proof.
  intros Hlead Hword rest Hrest. cbn [append regexp.search String.length].
  assert (Hw : startsWith isWordOrDash (lead ++ rest) = false).
  { destruct lead as [|c lead]; [|exact Hword].
    cbn [append]. now apply segmentEnd_facts. }
  rewrite (matchHere_no_name _ Hw), (search_gap lead rest Hlead).
  now destruct (regexp.search xpathRe rest) as [[[n m] r]|].
Qed.

Lemma allMatches_items (items : list (Segment * string)) :
  forall (fuel : nat) (afterMatch : bool) (pre : string),
    forallb wfItem items = true ->
    skipped pre ->
    String.length (pre ++ gapText items) < fuel ->
    regexp.allMatches fuel xpathRe (pre ++ gapText items) afterMatch
    = map (fun item => submatchOf (fst item)) items.
Proof.
  induction items as [|[s gap] items IH];
    intros fuel afterMatch pre Hwf Hpre Hfuel;
    (destruct fuel as [|fuel]; [lia|]).
  - cbn [gapText map regexp.allMatches].
    now rewrite (Hpre "" eq_refl).
  - cbn [forallb] in Hwf. apply andb_prop in Hwf. destruct Hwf as [Hitem Hitems].
    unfold wfItem, gapOK in Hitem. cbn [fst snd] in Hitem.
    apply andb_prop in Hitem. destruct Hitem as [Hs Hgap].
    apply andb_prop in Hgap. destruct Hgap as [Hgap Hfollow].
    cbn [gapText regexp.allMatches map fst].
    assert (Hm := matchHere_wf_segment_follow
                    s (gap ++ gapText items) Hs
                    (followOK_gap s gap (gapText items) Hfollow
                                  (gapText_segmentEnd items))).
    assert (Hsearch :
              regexp.search xpathRe (segmentText s ++ gap ++ gapText items)
              = Some (0, submatchOf s, gap ++ gapText items)).
    { destruct (segmentText s ++ gap ++ gapText items);
        cbn [regexp.search]; now rewrite Hm. }
    rewrite (Hpre (segmentText s ++ gap ++ gapText items) eq_refl), Hsearch.
    cbn [gapText] in Hfuel. rewrite !length_append in Hfuel.
    pose proof (segmentText_length s) as Hpos.
    assert (Hneq : Nat.eqb (String.length pre + 0) 0
                   && Nat.eqb (String.length (gap ++ gapText items))
                              (String.length
                                 (pre ++ segmentText s ++ gap ++ gapText items))
                   = false).
    { apply andb_false_iff. right. apply Nat.eqb_neq.
      rewrite !length_append. lia. }
    rewrite Hneq. f_equal.
    apply IH; [exact Hitems | now apply skipped_gap
               | rewrite length_append; lia].
Qed.

(** X2: text that stands between the segments of a path, from the end of
    a segment to the next separator, is left out of the document, and so
    is the text between the leading separator and the first segment (as
    in [//a] or [/*/a]): the path is translated as if it held the
    segments alone. *)
Theorem parseXPathToXML_gaps (lead : string) (items : list (Segment * string)) :
  items <> [] ->
  forallb wfItem items = true ->
  allBytes notSlash lead = true ->
  startsWith isWordOrDash lead = false ->
  parseXPathToXML (gapText items) = (nest (map fst items), None)
  /\ parseXPathToXML ("/" ++ lead ++ gapText items)
     = (nest (map fst items), None).
Proof.
  intros Hne Hwf Hlead Hword.
  assert (Hsegs : forallb wfSegment (map fst items) = true).
  { clear Hne. induction items as [|item items IH]; [reflexivity|].
    cbn [forallb map] in *. apply andb_prop in Hwf. destruct Hwf as [Hi Hwf].
    unfold wfItem in Hi. apply andb_prop in Hi. destruct Hi as [Hs _].
    now rewrite Hs, IH. }
  assert (Hdoc : forall matches,
             matches = map submatchOf (map fst items) ->
             (if Nat.eqb (List.length matches) 0
              then ("", Some (Errorf "invalid XPath format"))
              else let (buffer, openTags) :=
                       fold_left parseStep matches ("", []) in
                   (closeTags buffer openTags, None))
             = (nest (map fst items), None)).
  { intros matches ->.
    destruct items as [|item items]; [now elim Hne|].
    cbn [map List.length Nat.eqb].
    change (submatchOf (fst item) :: map submatchOf (map fst items))
      with (map submatchOf (map fst (item :: items))).
    rewrite (fold_parseStep_path (map fst (item :: items)) "" [] Hsegs).
    cbn [app]. rewrite closeTags_names. now rewrite nest_opens_closes. }
  assert (Hempty : skipped "").
  { intros rest _. cbn [append String.length Nat.add].
    now destruct (regexp.search xpathRe rest) as [[[n m] r]|]. }
  split.
  - unfold parseXPathToXML.
    assert (Hp : HasPrefix (gapText items) "/" = true).
    { destruct items as [|[s gap] items]; [now elim Hne|].
      apply HasPrefix_slash. cbn [gapText]. unfold segmentText.
      cbn [append]. eauto. }
    rewrite Hp. cbn [negb]. apply Hdoc.
    unfold regexp.FindAllStringSubmatch. rewrite map_map.
    apply (allMatches_items items _ false "" Hwf Hempty).
    cbn [append]. lia.
  - unfold parseXPathToXML.
    change ("/" ++ lead ++ gapText items)
      with (String "/" lead ++ gapText items).
    assert (Hp : HasPrefix (String "/" lead ++ gapText items) "/" = true)
      by (apply HasPrefix_slash; cbn [append]; eauto).
    rewrite Hp. cbn [negb]. apply Hdoc.
    unfold regexp.FindAllStringSubmatch. rewrite map_map.
    apply (allMatches_items items _ false (String "/" lead) Hwf
                            (skipped_lead lead Hlead Hword)).
    lia.
Qed.

Lemma parseXPathToXML_gaps_witness :
  parseXPathToXML ("/" ++ "*" ++ gapText sampleItems)
  = (nest (map fst sampleItems), None).
Proof.
  refine (proj2 (parseXPathToXML_gaps "*" sampleItems _ _ _ _)).
  - discriminate.
  - vm_compute. reflexivity.
  - vm_compute. reflexivity.
  - vm_compute. reflexivity.
Defined.

(** ** The value of a predicate *)

(** X3: the value of a predicate reaches the document escaped: the text
    of the predicate element is [html.EscapeString] of the value and holds
    none of [<], [>] and the two quote characters.  The tag of the
    predicate is written as it is. *)
Theorem parseXPathToXML_value_escaped (name : string) (p : Predicate) :
  wfSegment (mkSegment name (Some p)) = true ->
  exists text,
    parseXPathToXML ("/" ++ name ++ predicateText p)
    = ("<" ++ name ++ ">" ++ "<" ++ predTag p ++ ">" ++ text
           ++ "</" ++ predTag p ++ ">" ++ "</" ++ name ++ ">", None)
    /\ text = html.EscapeString (predValue p)
    /\ allBytes notMarkup text = true.
Proof.
  intros Hwf. exists (html.EscapeString (predValue p)).
  split; [|split; [reflexivity | apply EscapeString_safe]].
  assert (Hwfs : forallb wfSegment [mkSegment name (Some p)] = true)
    by (cbn [forallb]; now rewrite Hwf).
  assert (Hm : regexp.FindAllStringSubmatch
                 xpathRe (pathText [mkSegment name (Some p)])
               = map submatchOf [mkSegment name (Some p)])
    by (unfold regexp.FindAllStringSubmatch;
        apply allMatches_path; [exact Hwfs | lia]).
  assert (Hne : [mkSegment name (Some p)] <> []) by discriminate.
  assert (H := parseXPathToXML_of_matches
                 (pathText [mkSegment name (Some p)])
                 [mkSegment name (Some p)]
                 (pathText_HasPrefix _ Hne) Hm Hne Hwfs).
  cbn [pathText nest] in H. rewrite append_nil_r in H.
  unfold segmentText, childOf in H. cbn [segName segPred] in H. rewrite H.
  f_equal. now repeat (rewrite !append_assoc; cbn [append]).
Qed.

Lemma parseXPathToXML_value_escaped_witness :
  exists text,
    parseXPathToXML ("/" ++ "book" ++ predicateText
                         (mkPredicate "title" dquote "<Q&A>" dquote))
    = ("<" ++ "book" ++ ">" ++ "<" ++ "title" ++ ">" ++ text
           ++ "</" ++ "title" ++ ">" ++ "</" ++ "book" ++ ">", None)
    /\ text = html.EscapeString "<Q&A>"
    /\ allBytes notMarkup text = true.
Proof.
  apply (parseXPathToXML_value_escaped
           "book" (mkPredicate "title" dquote "<Q&A>" dquote)).
  vm_compute. reflexivity.
Defined.

(** ** The tag of a datastore selector *)

(** Plain bytes in front are copied and the escaping goes on behind
    them. *)
Lemma escapeText_plain_append (p t : string) :
  isPlain p = true -> xml.escapeText 0 (p ++ t) = p ++ xml.escapeText 0 t.
Proof.
  induction p as [|c p IH]; [reflexivity|].
  cbn [isPlain]. intros H. apply andb_prop in H. destruct H as [Hc Hp].
  unfold isPlainByte in Hc. apply andb_prop in Hc. destruct Hc as [Hlt Hesc].
  cbn [append xml.escapeText]. rewrite (DecodeRune_ascii _ _ Hlt).
  destruct (xml.escapeRune (byteZ c) 1); [discriminate|].
  cbn. now rewrite IH.
Qed.

(** An ASCII byte that has a replacement is written as its replacement. *)
Lemma escapeText_replaced (c : ascii) (esc t : string) :
  (nat_of_ascii c <? 128)%nat = true ->
  xml.escapeRune (byteZ c) 1 = Some esc ->
  xml.escapeText 0 (String c t) = esc ++ xml.escapeText 0 t.
Proof.
  intros Hlt Hesc. cbn [xml.escapeText].
  rewrite (DecodeRune_ascii _ _ Hlt), Hesc. reflexivity.
Qed.

(** C4: encoding a datastore selector with the empty identifier returns
    the error "datastores cannot be empty" and leaves the encoder as it
    was: nothing is written.  Encoding a non-empty identifier writes, in
    the selector element [start], an empty element whose tag name is the
    XML-escaped identifier.  The escaped identifier is not empty and holds
    none of [<], [>] and the two quote characters; each of the two quote
    characters, [&], [<], [>], the tab, the line feed and the carriage
    return is written as its character reference; and an identifier no
    byte of which needs escaping, as [running] and every identifier of
    letters, digits, [_], [-] and [.], is the tag name itself. *)
Theorem Datastore_MarshalXML_encoding (s : Datastore) (e : xml.Encoder)
        (start : xml.StartElement) :
  xml.Local start <> "" ->
  (s = "" ->
   Datastore.MarshalXML s e start
   = (e, Some (Errorf "datastores cannot be empty")))
  /\ (s <> "" ->
      escapeXML s = (xml.escapeText 0 s, None)
      /\ Datastore.MarshalXML s e start
         = (e ++ "<" ++ xml.Local start ++ ">"
              ++ "<" ++ xml.escapeText 0 s ++ "/>"
              ++ "</" ++ xml.Local start ++ ">", None))
  /\ (s <> "" -> isPlain s = true ->
      Datastore.MarshalXML s e start
      = (e ++ "<" ++ xml.Local start ++ ">"
           ++ "<" ++ s ++ "/>"
           ++ "</" ++ xml.Local start ++ ">", None))
  /\ (s <> "" -> allBytes xml.isNameByte s = true ->
      Datastore.MarshalXML s e start
      = (e ++ "<" ++ xml.Local start ++ ">"
           ++ "<" ++ s ++ "/>"
           ++ "</" ++ xml.Local start ++ ">", None))
  /\ (s <> "" ->
      xml.escapeText 0 s <> ""
      /\ allBytes notMarkup (xml.escapeText 0 s) = true)
  /\ (forall (p q : string) (c : ascii) (esc : string),
         In (c, esc) [(dquote, "&#34;"); (squote, "&#39;");
                      ("&"%char, "&amp;"); ("<"%char, "&lt;");
                      (">"%char, "&gt;"); (ascii_of_nat 9, "&#x9;");
                      (ascii_of_nat 10, "&#xA;"); (ascii_of_nat 13, "&#xD;")] ->
         isPlain p = true -> isPlain q = true ->
         s = p ++ String c q ->
         Datastore.MarshalXML s e start
         = (e ++ "<" ++ xml.Local start ++ ">"
              ++ "<" ++ p ++ esc ++ q ++ "/>"
              ++ "</" ++ xml.Local start ++ ">", None)).
Proof.
  intros Hstart. split; [|split; [|split; [|split; [|split]]]].
  - intros ->. reflexivity.
  - intros Hs. split; [reflexivity|].
    now apply Datastore_MarshalXML_nonempty.
  - intros Hs Hplain.
    rewrite (Datastore_MarshalXML_nonempty s e start Hs Hstart).
    now rewrite (escapeText_plain _ Hplain).
  - intros Hs Hname.
    assert (Hplain : isPlain s = true).
    { clear Hs. induction s as [|c s IH]; [reflexivity|].
      cbn [allBytes isPlain] in *. apply andb_prop in Hname.
      destruct Hname as [Hc Hn]. now rewrite (isNameByte_plain c Hc), IH. }
    rewrite (Datastore_MarshalXML_nonempty s e start Hs Hstart).
    now rewrite (escapeText_plain _ Hplain).
  - intros Hs. split; [now apply escapeText_nonempty | apply escapeText_safe].
  - intros p q c esc Hin Hp Hq ->.
    assert (Hne : p ++ String c q <> "") by (destruct p; discriminate).
    rewrite (Datastore_MarshalXML_nonempty _ e start Hne Hstart).
    rewrite (escapeText_plain_append _ _ Hp).
    assert (Hc : xml.escapeText 0 (String c q) = esc ++ q).
    { rewrite <- (escapeText_plain _ Hq) at 2.
      cbn [In] in Hin.
      repeat (destruct Hin as [Hin|Hin];
              [injection Hin as <- <-;
               apply escapeText_replaced; reflexivity|]).
      now elim Hin. }
    rewrite Hc. f_equal. now repeat (rewrite !append_assoc; cbn [append]).
Qed.

Lemma Datastore_MarshalXML_encoding_witness :
  Datastore.MarshalXML Running "" (xml.mkStart "source")
  = ("<source><running/></source>", None)
  /\ Datastore.MarshalXML "R&D" "" (xml.mkStart "source")
     = ("<source><R&amp;D/></source>", None)
  /\ Datastore.MarshalXML "" "<get-config>" (xml.mkStart "source")
     = ("<get-config>", Some (Errorf "datastores cannot be empty")).
Proof.
  assert (Hstart : xml.Local (xml.mkStart "source") <> "")
    by (simpl; discriminate).
  split; [|split].
  - refine (proj1 (proj2 (proj2 (Datastore_MarshalXML_encoding
                                   Running "" (xml.mkStart "source") Hstart)))
                  _ _).
    + unfold Running; discriminate.
    + vm_compute; reflexivity.
  - refine (proj2 (proj2 (proj2 (proj2 (proj2
              (Datastore_MarshalXML_encoding
                 "R&D" "" (xml.mkStart "source") Hstart)))))
              "R" "D" "&"%char "&amp;" _ _ _ _).
    + cbn [In]. right. right. left. reflexivity.
    + vm_compute; reflexivity.
    + vm_compute; reflexivity.
    + reflexivity.
  - refine (proj1 (Datastore_MarshalXML_encoding
                     "" "<get-config>" (xml.mkStart "source") Hstart) _).
    reflexivity.
Defined.

(** ** Text that the translator leaves out *)








